(** * Snowflake identifiers: the generator of [src/index.ts], its decoder,
    and the configuration adapters of [src/browser.ts] and [src/node.ts].

    Modelling conventions.
    - A JavaScript [number] that the program uses as an integer (clock
      readings, epochs, datacenter and worker ids, sequence numbers) is a [Z];
      a [BigInt] is a [Z] as well.  Where the program subtracts or adds
      numbers that may leave the range of exact integers, or converts a
      [BigInt] or a digit string to a number, the result is rounded to the
      nearest double ([Double.round]).  Fractions, [NaN] and magnitudes
      from 2^1024 on ([Infinity]) are outside the model, and so is the
      exponent notation that [Number.prototype.toString] uses from 10^21
      on.
    - A JavaScript string value is the list of its UTF-16 code units
      ([list N]); [js] turns a literal into that form.
    - An object used as a bag of optional properties ([SnowflakeConfig]) and
      the key/value stores ([localStorage], [process.env]) are [gmap]s keyed
      by property name.
    - [Date.now()] reads the head of a list of clock readings and leaves the
      tail; a computation that asks for a reading when none is left is
      [Pending] (the supplied readings ended while it was still running). *)

From Stdlib Require Import ZArith NArith QArith Qround Lia List String Ascii Bool.
From stdpp Require Import gmap strings list.
Import ListNotations.

Local Open Scope Z_scope.

(** ** JavaScript strings *)

Abbreviation jsstring := (list N).

Definition js (s : string) : jsstring :=
  map N_of_ascii (list_ascii_of_string s).

(** ** Completions: a value, a thrown exception, or a call still running *)

Inductive exn : Type :=
  | Error (message : jsstring)
  | SyntaxError.

Inductive result (A : Type) : Type :=
  | Return (a : A)
  | Throw (e : exn)
  | Pending.

Arguments Return {A} a.
Arguments Throw {A} e.
Arguments Pending {A}.

(** ** Numbers: integers as doubles *)

Module Double.

(** The multiple of [m] nearest to [a]; of two equally near ones, the one
    whose quotient by [m] is even. *)
Definition roundToMultiple (m a : Z) : Z :=
  let q := a / m in
  let r := a mod m in
  if (2 * r >? m) || ((2 * r =? m) && Z.odd q) then (q + 1) * m else q * m.

(** A non-negative integer rounded to 53 significant bits: below 2^53 it is
    a double as it is; from there on its lowest [log2 a - 52] bits are
    rounded away, to nearest, ties to even. *)
Definition roundMagnitude (a : Z) : Z :=
  if a <? 2 ^ 53 then a else roundToMultiple (2 ^ (Z.log2 a - 52)) a.

(** The double nearest to an integer. *)
Definition round (x : Z) : Z := Z.sgn x * roundMagnitude (Z.abs x).

(** [a - b] and [a + b] on numbers, and [Number(bigint)]. *)
Definition sub (a b : Z) : Z := round (a - b).
Definition add (a b : Z) : Z := round (a + b).
Definition ofBigInt (z : Z) : Z := round z.

End Double.

(** ** Built-ins of the language that the program calls *)

Module Builtin.

(** [StrWhiteSpaceChar] of ECMAScript: WhiteSpace (TAB, VT, FF, ZWNBSP and
    the Unicode space separators) and LineTerminator (LF, CR, LS, PS). *)
Definition StrWhiteSpaceChar (c : N) : bool :=
  ((9 <=? c) && (c <=? 13) || (c =? 32) || (c =? 160) || (c =? 5760)
   || (8192 <=? c) && (c <=? 8202) || (c =? 8232) || (c =? 8233)
   || (c =? 8239) || (c =? 8287) || (c =? 12288) || (c =? 65279))%N.

(** The value of a code unit as a digit of the given radix. *)
Definition digitValue (radix c : N) : option N :=
  let v :=
    (if (48 <=? c) && (c <=? 57) then Some (c - 48)
     else if (97 <=? c) && (c <=? 122) then Some (c - 87)
     else if (65 <=? c) && (c <=? 90) then Some (c - 55)
     else None)%N in
  match v with
  | Some d => if (d <? radix)%N then Some d else None
  | None => None
  end.

(** Mathematical value of a run of digits, most significant first;
    [None] when some code unit is not a digit of the radix. *)
Fixpoint digitsValue (radix : N) (acc : N) (s : jsstring) : option N :=
  match s with
  | [] => Some acc
  | c :: s' =>
      match digitValue radix c with
      | Some d => digitsValue radix (acc * radix + d)%N s'
      | None => None
      end
  end.

(** A non-empty run of digits. *)
Definition digits1 (radix : N) (s : jsstring) : option Z :=
  match s with
  | [] => None
  | _ => Z.of_N <$> digitsValue radix 0%N s
  end.

Fixpoint trimStart (s : jsstring) : jsstring :=
  match s with
  | c :: s' => if StrWhiteSpaceChar c then trimStart s' else s
  | [] => []
  end.

Definition trimEnd (s : jsstring) : jsstring :=
  rev (trimStart (rev s)).

Definition trim (s : jsstring) : jsstring := trimEnd (trimStart s).

Definition isDecimalDigit (c : N) : bool := ((48 <=? c) && (c <=? 57))%N.

Definition isChar (c : N) (a b : N) : bool := ((c =? a) || (c =? b))%N.

(** The value of a [StrIntegerLiteral]: decimal digits with an optional
    sign, or an unsigned literal with prefix [0b], [0o] or [0x] (either
    case); [None] when the text is not one. *)
Definition StrIntegerLiteralValue (text : jsstring) : option Z :=
  match text with
  | [] => None
  | c0 :: rest =>
      if (c0 =? 43)%N then digits1 10 rest
      else if (c0 =? 45)%N then Z.opp <$> digits1 10 rest
      else
        match rest with
        | c1 :: ds =>
            if (c0 =? 48)%N && isChar c1 98 66 then digits1 2 ds
            else if (c0 =? 48)%N && isChar c1 111 79 then digits1 8 ds
            else if (c0 =? 48)%N && isChar c1 120 88 then digits1 16 ds
            else digits1 10 text
        | [] => digits1 10 text
        end
  end.

(** [StringToBigInt]: white space is stripped from both ends; what is
    left is empty (value 0) or must be a [StrIntegerLiteral]; [None]
    stands for [undefined]. *)
Definition StringToBigInt (s : jsstring) : option Z :=
  match trim s with
  | [] => Some 0
  | text => StrIntegerLiteralValue text
  end.

(** [BigInt(value)] applied to a string. *)
Definition BigInt (s : jsstring) : result Z :=
  match StringToBigInt s with
  | Some z => Return z
  | None => Throw SyntaxError
  end.

(** Decimal digits of a natural number, most significant first. *)
Fixpoint digitsOf (fuel : nat) (n : N) (acc : jsstring) : jsstring :=
  let acc' := (48 + n mod 10)%N :: acc in
  match fuel with
  | O => acc'
  | S fuel' =>
      if (n / 10 =? 0)%N then acc' else digitsOf fuel' (n / 10)%N acc'
  end.

Definition NtoString (n : N) : jsstring :=
  digitsOf (N.to_nat (N.log2 n)) n [].

(** [BigInt.prototype.toString()], and [Number.prototype.toString()] on a
    safe integer (a larger double prints the shortest digits that read back
    as it, and from 10^21 on in exponent notation; neither is modelled):
    decimal, with a minus sign (code unit 45) when negative. *)
Definition toString (z : Z) : jsstring :=
  if z <? 0 then 45%N :: NtoString (Z.abs_N z) else NtoString (Z.abs_N z).

(** Longest prefix of decimal digits, with its value. *)
Fixpoint leadingDigits (acc : option N) (s : jsstring) : option N :=
  match s with
  | c :: s' =>
      match digitValue 10 c with
      | Some d =>
          leadingDigits (Some (match acc with
                               | Some a => a * 10 + d
                               | None => d
                               end)%N) s'
      | None => acc
      end
  | [] => acc
  end.

(** [Number.parseInt(string, 10)]: leading white space is skipped, one
    sign is accepted, then the longest run of decimal digits is read and
    the rest ignored; the result is the double nearest to the integer read
    (past 20 significant digits an implementation may read the further
    digits as 0 before it rounds; the model rounds the exact value);
    [None] stands for [NaN] (no digit found). *)
Definition parseInt10 (s : jsstring) : option Z :=
  let number (digits : option N) : option Z :=
    (fun n => Double.round (Z.of_N n)) <$> digits in
  match trimStart s with
  | c :: rest =>
      if (c =? 45)%N then Z.opp <$> number (leadingDigits None rest)
      else if (c =? 43)%N then number (leadingDigits None rest)
      else number (leadingDigits None (c :: rest))
  | [] => None
  end.

(** [TimeClip]: the time value of [new Date(t)]; [None] is an invalid
    date. *)
Definition TimeClip (t : Z) : option Z :=
  if Z.abs t <=? 8640000000000000 then Some t else None.

End Builtin.

(** ** Computations that read the clock

    [M A] threads the clock readings still to come; [Date_now] takes the
    next one. *)

Definition M (A : Type) : Type := list Z -> result A * list Z.

Definition ret {A} (a : A) : M A := fun clock => (Return a, clock).

Definition throw {A} (e : exn) : M A := fun clock => (Throw e, clock).

Definition bind {A B} (c : M A) (k : A -> M B) : M B :=
  fun clock =>
    match c clock with
    | (Return a, clock') => k a clock'
    | (Throw e, clock') => (Throw e, clock')
    | (Pending, clock') => (Pending, clock')
    end.

Notation "'let*' x ':=' c 'in' k" := (bind c (fun x => k))
  (at level 10, x name, c at level 100, k at level 200).
Notation "'let*' ' p ':=' c 'in' k" := (bind c (fun x => let 'p := x in k))
  (at level 10, p pattern, c at level 100, k at level 200).

Definition Date_now : M Z :=
  fun clock =>
    match clock with
    | now :: clock' => (Return now, clock')
    | [] => (Pending, [])
    end.

(** ** src/index.ts *)

(** A property of a [SnowflakeConfig] object that is present holds a number
    or [undefined]. *)
Inductive jsvalue : Type :=
  | undefined
  | number (n : Z).

Abbreviation SnowflakeConfig := (gmap string jsvalue).

(** Object spread [{...a, ...b}]: the own properties of [b] win. *)
Definition spread (a b : gmap string jsvalue) : gmap string jsvalue := b ∪ a.

(** Destructuring with a default, [{ key = dflt } = config]: the default is
    used when the property is missing or holds [undefined]. *)
Definition withDefault (config : gmap string jsvalue) (key : string) (dflt : Z) : Z :=
  match config !! key with
  | Some (number n) => n
  | Some undefined | None => dflt
  end.

Definition DEFAULT_EPOCH : Z := 1577836800000.

Definition TIMESTAMP_BITS : Z := 41.
Definition DATACENTER_BITS : Z := 5.
Definition WORKER_BITS : Z := 5.
Definition SEQUENCE_BITS : Z := 12.

Definition MAX_DATACENTER_ID : Z := Z.shiftl 1 DATACENTER_BITS - 1.
Definition MAX_WORKER_ID : Z := Z.shiftl 1 WORKER_BITS - 1.
Definition MAX_SEQUENCE : Z := Z.shiftl 1 SEQUENCE_BITS - 1.

Definition SEQUENCE_SHIFT : Z := 0.
Definition WORKER_SHIFT : Z := SEQUENCE_BITS.
Definition DATACENTER_SHIFT : Z := SEQUENCE_BITS + WORKER_BITS.
Definition TIMESTAMP_SHIFT : Z := SEQUENCE_BITS + WORKER_BITS + DATACENTER_BITS.

(** The variables the function returned by [createSnowflake] closes over:
    the three configuration constants and the two mutable ones. *)
Record Generator : Type := mkGenerator {
  epoch : Z;
  datacenterId : Z;
  workerId : Z;
  lastTimestamp : Z;
  sequence : Z
}.

Definition datacenterIdMessage : jsstring :=
  js "Datacenter ID must be between 0 and " ++ Builtin.toString MAX_DATACENTER_ID.

Definition workerIdMessage : jsstring :=
  js "Worker ID must be between 0 and " ++ Builtin.toString MAX_WORKER_ID.

Definition clockMessage : jsstring :=
  js "Clock moved backwards. Refusing to generate id".

(** [createSnowflake(config)] up to the [return] of the closure. *)
Definition createSnowflake (config : gmap string jsvalue) : result Generator :=
  let epoch := withDefault config "epoch" DEFAULT_EPOCH in
  let datacenterId := withDefault config "datacenterId" 0 in
  let workerId := withDefault config "workerId" 0 in
  if (datacenterId <? 0) || (datacenterId >? MAX_DATACENTER_ID) then
    Throw (Error datacenterIdMessage)
  else if (workerId <? 0) || (workerId >? MAX_WORKER_ID) then
    Throw (Error workerIdMessage)
  else
    Return {| epoch := epoch; datacenterId := datacenterId; workerId := workerId;
              lastTimestamp := -1; sequence := 0 |}.

(** The loop [while (timestamp <= lastTimestamp) timestamp = Date.now()]. *)
Fixpoint waitForNextMillisecond (lastTimestamp timestamp : Z) (clock : list Z)
  {struct clock} : result Z * list Z :=
  if timestamp <=? lastTimestamp then
    match clock with
    | now :: clock' => waitForNextMillisecond lastTimestamp now clock'
    | [] => (Pending, [])
    end
  else (Return timestamp, clock).

(** The four numbers that the closure packs into an identifier. *)
Record Fields : Type := mkFields {
  timestampOffset : Z;
  fieldDatacenterId : Z;
  fieldWorkerId : Z;
  fieldSequence : Z
}.

(** Lines 59-82 of the closure: the clock protocol, the update of
    [lastTimestamp] and [sequence], and the offset from the epoch.  The
    [throw] comes before any assignment, so a call that throws leaves the
    generator as it was. *)
Definition nextFields (g : Generator) : M (Fields * Generator) :=
  let* timestamp := Date_now in
  if timestamp <? lastTimestamp g then throw (Error clockMessage)
  else
    let* '(timestamp, sequence) :=
      (if timestamp =? lastTimestamp g then
         let sequence := Z.land (sequence g + 1) MAX_SEQUENCE in
         if sequence =? 0 then
           let* timestamp := waitForNextMillisecond (lastTimestamp g) timestamp in
           ret (timestamp, sequence)
         else ret (timestamp, sequence)
       else ret (timestamp, 0)) in
    let timestampOffset := Double.sub timestamp (epoch g) in
    ret ({| timestampOffset := timestampOffset;
            fieldDatacenterId := datacenterId g;
            fieldWorkerId := workerId g;
            fieldSequence := sequence |},
         {| epoch := epoch g; datacenterId := datacenterId g; workerId := workerId g;
            lastTimestamp := timestamp; sequence := sequence |}).

(** Lines 85-89: shift the fields into place and OR them together. *)
Definition encode (f : Fields) : Z :=
  Z.lor (Z.lor (Z.lor (Z.shiftl (timestampOffset f) TIMESTAMP_SHIFT)
                      (Z.shiftl (fieldDatacenterId f) DATACENTER_SHIFT))
               (Z.shiftl (fieldWorkerId f) WORKER_SHIFT))
        (fieldSequence f).

(** One call of the closure: the identifier as a decimal string, and the
    generator after the call. *)
Definition generate (g : Generator) : M (jsstring * Generator) :=
  let* '(fields, g') := nextFields g in
  let id := encode fields in
  ret (Builtin.toString id, g').

Definition generateSnowflakeId (config : gmap string jsvalue) : M jsstring :=
  match createSnowflake config with
  | Return generator => let* '(id, _) := generate generator in ret id
  | Throw e => throw e
  | Pending => fun clock => (Pending, clock)
  end.

Module Parsed.
Record Components : Type := mkComponents {
  timestamp : Z;
  datacenterId : Z;
  workerId : Z;
  sequence : Z;
  date : option Z
}.
End Parsed.

Definition parseSnowflakeId (id : jsstring) (epoch : Z) : result Parsed.Components :=
  match Builtin.BigInt id with
  | Return idBigInt =>
      let timestamp :=
        Double.add (Double.ofBigInt (Z.shiftr idBigInt TIMESTAMP_SHIFT)) epoch in
      let datacenterId := Z.land (Z.shiftr idBigInt DATACENTER_SHIFT) MAX_DATACENTER_ID in
      let workerId := Z.land (Z.shiftr idBigInt WORKER_SHIFT) MAX_WORKER_ID in
      let sequence := Z.land idBigInt MAX_SEQUENCE in
      Return {| Parsed.timestamp := timestamp;
                Parsed.datacenterId := datacenterId;
                Parsed.workerId := workerId;
                Parsed.sequence := sequence;
                Parsed.date := Builtin.TimeClip timestamp |}
  | Throw e => Throw e
  | Pending => Pending
  end.

Definition getSnowflakeTimestamp (id : jsstring) (epoch : Z) : result Z :=
  match Builtin.BigInt id with
  | Return idBigInt =>
      Return (Double.add (Double.ofBigInt (Z.shiftr idBigInt TIMESTAMP_SHIFT)) epoch)
  | Throw e => Throw e
  | Pending => Pending
  end.

Definition snowflakeToDate (id : jsstring) (epoch : Z) : result (option Z) :=
  match getSnowflakeTimestamp id epoch with
  | Return t => Return (Builtin.TimeClip t)
  | Throw e => Throw e
  | Pending => Pending
  end.

(** [n] calls of one generator, one after the other, each with its
    completion.  A call that throws leaves the generator as it was; a call
    that is still waiting when the readings end never returns, so nothing
    runs after it. *)
Fixpoint calls (n : nat) (g : Generator) (clock : list Z) : list (result jsstring) :=
  match n with
  | O => []
  | S n' =>
      match generate g clock with
      | (Return (id, g'), clock') => Return id :: calls n' g' clock'
      | (Throw e, clock') => Throw e :: calls n' g clock'
      | (Pending, _) => [Pending]
      end
  end.

(** The identifiers of the calls that returned, in call order. *)
Fixpoint returned (completions : list (result jsstring)) : list jsstring :=
  match completions with
  | Return id :: rest => id :: returned rest
  | _ :: rest => returned rest
  | [] => []
  end.

(** ** src/browser.ts *)

Module Browser.

Definition EPOCH : string := "snowflake.epoch".
Definition DATACENTER_ID : string := "snowflake.datacenterId".
Definition WORKER_ID : string := "snowflake.workerId".

(** [localStorage]: [None] when [typeof localStorage === "undefined"],
    otherwise the stored items.  [console.warn] is not modelled. *)
Abbreviation Storage := (option (gmap string jsstring)).

(** What [generateBrowserDatacenterId()] and [generateBrowserWorkerId()]
    return: hashes of the time zone and of navigator and screen data (or a
    random number), reduced modulo 32.  The environment they read is not
    modelled; their results are taken as given. *)
Record Fingerprint : Type := mkFingerprint {
  generateBrowserDatacenterId : Z;
  generateBrowserWorkerId : Z
}.

Definition parseLocalStorageInt (localStorage : Storage) (key : string) (min max : Z)
  : jsvalue :=
  match localStorage with
  | None => undefined
  | Some items =>
      match items !! key with
      | None | Some [] => undefined
      | Some value =>
          match Builtin.parseInt10 value with
          | None => undefined
          | Some parsed =>
              if (parsed <? min) || (parsed >? max) then undefined
              else number parsed
          end
      end
  end.

Definition loadConfigFromStorage (localStorage : Storage) : gmap string jsvalue :=
  let config : gmap string jsvalue := ∅ in
  match localStorage with
  | None => config
  | Some items =>
      let config :=
        match items !! EPOCH with
        | None | Some [] => config
        | Some epochStr =>
            match Builtin.parseInt10 epochStr with
            | Some epoch => <["epoch" := number epoch]> config
            | None => config
            end
        end in
      let config :=
        <["datacenterId" := parseLocalStorageInt localStorage DATACENTER_ID 0 31]> config in
      let config :=
        <["workerId" := parseLocalStorageInt localStorage WORKER_ID 0 31]> config in
      config
  end.

Definition generateBrowserConfig (fp : Fingerprint) : gmap string jsvalue :=
  <["workerId" := number (generateBrowserWorkerId fp)]>
    (<["datacenterId" := number (generateBrowserDatacenterId fp)]> ∅).

Definition createSnowflakeFromStorage (overrides : gmap string jsvalue)
    (localStorage : Storage) (fp : Fingerprint) : result Generator :=
  let storageConfig := loadConfigFromStorage localStorage in
  let browserConfig := generateBrowserConfig fp in
  let finalConfig := spread (spread browserConfig storageConfig) overrides in
  createSnowflake finalConfig.

End Browser.

(** ** src/node.ts *)

Module Node.

Definition EPOCH : string := "SNOWFLAKE_EPOCH".
Definition DATACENTER_ID : string := "SNOWFLAKE_DATACENTER_ID".
Definition WORKER_ID : string := "SNOWFLAKE_WORKER_ID".

Definition parseEnvInt (value : option jsstring) (min max : Z) (name : string)
  : result jsvalue :=
  match value with
  | None | Some [] => Return undefined
  | Some value =>
      match Builtin.parseInt10 value with
      | None =>
          Throw (Error (js "Environment variable " ++ js name
                        ++ js " must be a valid integer"))
      | Some parsed =>
          if (parsed <? min) || (parsed >? max) then
            Throw (Error (js "Environment variable " ++ js name
                          ++ js " must be between " ++ Builtin.toString min
                          ++ js " and " ++ Builtin.toString max))
          else Return (number parsed)
      end
  end.

(** [process.env] is the map from variable names to their values. *)
Definition loadConfigFromEnv (env : gmap string jsstring) : result (gmap string jsvalue) :=
  let config : gmap string jsvalue := ∅ in
  let epochStep : result (gmap string jsvalue) :=
    match env !! EPOCH with
    | None | Some [] => Return config
    | Some epochStr =>
        match Builtin.parseInt10 epochStr with
        | None =>
            Throw (Error (js "Environment variable " ++ js EPOCH
                          ++ js " must be a valid integer timestamp"))
        | Some epoch => Return (<["epoch" := number epoch]> config)
        end
    end in
  match epochStep with
  | Return config =>
      match parseEnvInt (env !! DATACENTER_ID) 0 31 DATACENTER_ID with
      | Return datacenterId =>
          let config := <["datacenterId" := datacenterId]> config in
          match parseEnvInt (env !! WORKER_ID) 0 31 WORKER_ID with
          | Return workerId => Return (<["workerId" := workerId]> config)
          | Throw e => Throw e
          | Pending => Pending
          end
      | Throw e => Throw e
      | Pending => Pending
      end
  | Throw e => Throw e
  | Pending => Pending
  end.

Definition createSnowflakeFromEnv (overrides : gmap string jsvalue)
    (env : gmap string jsstring) : result Generator :=
  match loadConfigFromEnv env with
  | Return envConfig =>
      let finalConfig := spread envConfig overrides in
      createSnowflake finalConfig
  | Throw e => Throw e
  | Pending => Pending
  end.

End Node.

(** ** src/browser.ts: the fingerprint *)

Module Fingerprinting.

(** [ToInt32]: the signed 32-bit integer congruent to [x] modulo 2^32. *)
Definition ToInt32 (x : Z) : Z := (x + 2 ^ 31) mod 2 ^ 32 - 2 ^ 31.

(** The operators [a << n] and [a & b] on numbers. *)
Definition shiftLeft (a n : Z) : Z := ToInt32 (Z.shiftl (ToInt32 a) n).
Definition bitwiseAnd (a b : Z) : Z := ToInt32 (Z.land (ToInt32 a) (ToInt32 b)).

(** One round of the loop:
    [hash = (hash << 5) - hash + char; hash = hash & hash]. *)
Definition hashStep (hash : Z) (char : N) : Z :=
  let hash := shiftLeft hash 5 - hash + Z.of_N char in
  bitwiseAnd hash hash.

(** The loop over [charCodeAt(i)] for [i] from 0 to the length, from
    [hash = 0]. *)
Definition hashCode (s : jsstring) : Z := fold_left hashStep s 0.

(** [Math.abs(hash) % 32]. *)
Definition absMod32 (hash : Z) : Z := Z.rem (Z.abs hash) 32.

(** [globalThis.navigator] and [globalThis.screen]; a property that is
    [undefined] is [None]. *)
Record Navigator : Type := mkNavigator {
  userAgent : option jsstring;
  language : option jsstring;
  hardwareConcurrency : option Z
}.

Record Screen : Type := mkScreen {
  width : option Z;
  height : option Z;
  colorDepth : option Z
}.

(** [x ||] the empty string, on a string that may be undefined. *)
Definition orEmpty (x : option jsstring) : jsstring :=
  match x with
  | Some x => x
  | None => []
  end.

(** [x?.toString() ||] the empty string, on a number that may be undefined. *)
Definition toStringOrEmpty (x : option Z) : jsstring :=
  match x with
  | Some x => Builtin.toString x
  | None => []
  end.

(** [Array.prototype.join]. *)
Fixpoint join (separator : jsstring) (parts : list jsstring) : jsstring :=
  match parts with
  | [] => []
  | [part] => part
  | part :: rest => part ++ separator ++ join separator rest
  end.

(** [random] is what [Math.random()] returns if it is called: a number
    that is at least 0 and below 1.  Multiplying it by 32 and taking the
    floor are exact on doubles, so a rational stands for it. *)
Definition generateBrowserWorkerId
    (navigator : option Navigator) (screen : option Screen) (random : Q) : Z :=
  match navigator, screen with
  | Some navigator, Some screen =>
      let characteristics :=
        join (js "|")
          [ orEmpty (userAgent navigator);
            orEmpty (language navigator);
            toStringOrEmpty (width screen);
            toStringOrEmpty (height screen);
            toStringOrEmpty (colorDepth screen);
            toStringOrEmpty (hardwareConcurrency navigator) ] in
      absMod32 (hashCode characteristics)
  | _, _ => Qfloor (random * 32)
  end.

(** [timezone] is [Intl.DateTimeFormat().resolvedOptions().timeZone]. *)
Definition generateBrowserDatacenterId (timezone : jsstring) : Z :=
  absMod32 (hashCode timezone).

(** The two results, as [Browser.generateBrowserConfig] takes them. *)
Definition fingerprint (navigator : option Navigator) (screen : option Screen)
    (timezone : jsstring) (random : Q) : Browser.Fingerprint :=
  Browser.mkFingerprint (generateBrowserDatacenterId timezone)
                        (generateBrowserWorkerId navigator screen random).

(** [x || 0] on a number that may be undefined. *)
Definition orZero (x : option Z) : Z :=
  match x with
  | Some x => x
  | None => 0
  end.

Record BrowserFingerprint : Type := mkBrowserFingerprint {
  fingerprintDatacenterId : Z;
  fingerprintWorkerId : Z;
  fingerprintTimezone : jsstring;
  fingerprintUserAgent : jsstring;
  fingerprintScreen : Z * Z * Z;
  fingerprintNavigator : jsstring * Z
}.

(** [getBrowserFingerprint()]; the screen is (width, height, colorDepth) and
    the navigator (language, hardwareConcurrency). *)
Definition getBrowserFingerprint (navigator : option Navigator)
    (screen : option Screen) (timezone : jsstring) (random : Q) : BrowserFingerprint :=
  {| fingerprintDatacenterId := generateBrowserDatacenterId timezone;
     fingerprintWorkerId := generateBrowserWorkerId navigator screen random;
     fingerprintTimezone := timezone;
     fingerprintUserAgent := orEmpty (navigator ≫= userAgent);
     fingerprintScreen :=
       (orZero (screen ≫= width), orZero (screen ≫= height),
        orZero (screen ≫= colorDepth));
     fingerprintNavigator :=
       (orEmpty (navigator ≫= language), orZero (navigator ≫= hardwareConcurrency)) |}.

End Fingerprinting.

(** ** src/browser.ts: writing to [localStorage] *)

Module Stored.

(** [if (config.key !== undefined) localStorage.setItem(name, config.key.toString())]. *)
Definition saveField (config : gmap string jsvalue) (key name : string)
    (items : gmap string jsstring) : gmap string jsstring :=
  match config !! key with
  | Some (number n) => <[name := Builtin.toString n]> items
  | Some undefined | None => items
  end.

(** The storage after [saveConfigToStorage(config)]. *)
Definition saveConfigToStorage (config : gmap string jsvalue)
    (localStorage : option (gmap string jsstring)) : option (gmap string jsstring) :=
  match localStorage with
  | None => None
  | Some items =>
      let items := saveField config "epoch" Browser.EPOCH items in
      let items := saveField config "datacenterId" Browser.DATACENTER_ID items in
      let items := saveField config "workerId" Browser.WORKER_ID items in
      Some items
  end.

(** The storage after [clearStoredConfig()]. *)
Definition clearStoredConfig (localStorage : option (gmap string jsstring))
  : option (gmap string jsstring) :=
  match localStorage with
  | None => None
  | Some items =>
      Some (delete Browser.WORKER_ID
              (delete Browser.DATACENTER_ID (delete Browser.EPOCH items)))
  end.

(** [initializeBrowserConfig({ save, config: userConfig })]: the
    configuration it returns and the storage it leaves. *)
Definition initializeBrowserConfig (save : bool) (userConfig : gmap string jsvalue)
    (fp : Browser.Fingerprint) (localStorage : option (gmap string jsstring))
  : gmap string jsvalue * option (gmap string jsstring) :=
  let browserConfig := Browser.generateBrowserConfig fp in
  let finalConfig := spread browserConfig userConfig in
  (finalConfig,
   if save then saveConfigToStorage finalConfig localStorage else localStorage).

Definition generateFromStorage (overrides : gmap string jsvalue)
    (localStorage : option (gmap string jsstring)) (fp : Browser.Fingerprint)
  : M jsstring :=
  match Browser.createSnowflakeFromStorage overrides localStorage fp with
  | Return generator => let* '(id, _) := generate generator in ret id
  | Throw e => throw e
  | Pending => fun clock => (Pending, clock)
  end.

End Stored.

(** ** src/node.ts: one-shot generation *)

Module NodeOneShot.

Definition generateFromEnv (overrides : gmap string jsvalue)
    (env : gmap string jsstring) : M jsstring :=
  match Node.createSnowflakeFromEnv overrides env with
  | Return generator => let* '(id, _) := generate generator in ret id
  | Throw e => throw e
  | Pending => fun clock => (Pending, clock)
  end.

End NodeOneShot.

(** The polynomial hash of a string: the sum of its code units times
    descending powers of 31, computed without wrap-around. *)
Definition polynomial31 (s : jsstring) : Z :=
  fold_left (fun h c => 31 * h + Z.of_N c) s 0.

(** What may follow the digits that [parseInt] reads: nothing, or text that
    starts with a code unit that is not a decimal digit. *)
Definition stops (junk : jsstring) : Prop :=
  match junk with
  | [] => True
  | c :: _ => Builtin.digitValue 10 c = None
  end.

(** The item under a storage key after [saveConfigToStorage(config)]: the
    decimal string of the field when the configuration holds a number for
    it, the item that was there before otherwise. *)
Definition savedItem (config : gmap string jsvalue) (key : string)
    (old : option jsstring) : option jsstring :=
  match config !! key with
  | Some (number n) => Some (Builtin.toString n)
  | _ => old
  end.

(** An environment variable that makes [loadConfigFromEnv] throw: it is set
    to a non-empty text from which [parseInt] reads no integer, or reads one
    that [inRange] refuses. *)
Definition rejected (value : option jsstring) (inRange : Z -> bool) : Prop :=
  exists c text,
    value = Some (c :: text)
    /\ match Builtin.parseInt10 (c :: text) with
       | Some n => inRange n = false
       | None => True
       end.

Definition idInRange (n : Z) : bool := (0 <=? n) && (n <=? 31).

(** The largest integer below which every integer is a double:
    [Number.MAX_SAFE_INTEGER]. *)
Definition MAX_SAFE_INTEGER : Z := 2 ^ 53 - 1.

(** A configuration whose numbers are safe integers, the numbers whose
    [toString()] is their plain decimal numeral. *)
Definition safeNumbers (config : gmap string jsvalue) : Prop :=
  forall key n, config !! key = Some (number n) -> Z.abs n <= MAX_SAFE_INTEGER.

(** ** Notions used to state the properties *)

(** The generator's id fields are in range and its sequence fits 12 bits. *)
Definition wellFormed (g : Generator) : Prop :=
  0 <= datacenterId g <= 31 /\ 0 <= workerId g <= 31 /\ 0 <= sequence g <= 4095.

(** The generator after a call that settled on [timestamp] with
    [sequence]. *)
Definition advanced (g : Generator) (timestamp sequence : Z) : Generator :=
  {| epoch := epoch g; datacenterId := datacenterId g; workerId := workerId g;
     lastTimestamp := timestamp; sequence := sequence |}.

(** The fields packed for the generator's current [lastTimestamp] and
    [sequence]. *)
Definition fieldsOf (g : Generator) : Fields :=
  {| timestampOffset := Double.sub (lastTimestamp g) (epoch g);
     fieldDatacenterId := datacenterId g;
     fieldWorkerId := workerId g;
     fieldSequence := sequence g |}.

(** The value of the identifier the generator emitted last. *)
Definition lastIdentifier (g : Generator) : Z := encode (fieldsOf g).

(** [g'] is a later state of the generator than [g]: a later millisecond,
    or the same millisecond with a larger sequence number. *)
Definition precedes (g g' : Generator) : Prop :=
  lastTimestamp g < lastTimestamp g'
  \/ (lastTimestamp g' = lastTimestamp g /\ sequence g < sequence g').

(** The reading is near enough to the epoch for their difference to be a
    double, so that the program's subtraction is exact. *)
Definition exactOffset (epoch reading : Z) : Prop :=
  Z.abs (reading - epoch) <= 2 ^ 53.


(** A decimal numeral: one or more decimal digits and nothing else. *)
Definition numeric (s : jsstring) : bool :=
  match s with
  | [] => false
  | _ => forallb Builtin.isDecimalDigit s
  end.

(** A code unit is a digit of the radix. *)
Definition digitOf (radix c : N) : bool :=
  match Builtin.digitValue radix c with
  | Some _ => true
  | None => false
  end.

Definition isBinaryDigit (c : N) : bool := ((c =? 48) || (c =? 49))%N.
Definition isOctalDigit (c : N) : bool := ((48 <=? c) && (c <=? 55))%N.
Definition isHexDigit (c : N) : bool :=
  ((48 <=? c) && (c <=? 57) || (97 <=? c) && (c <=? 102) || (65 <=? c) && (c <=? 70))%N.

(** The grammar that [BigInt(string)] accepts, written out:
    [StrIntegerLiteral] is a signed decimal or an unsigned prefixed literal,
    [StringIntegerLiteral] allows white space around it or nothing but
    white space. *)
Inductive Digits (isDigit : N -> bool) : jsstring -> Prop :=
  | Digits_one c : isDigit c = true -> Digits isDigit [c]
  | Digits_more c s : isDigit c = true -> Digits isDigit s -> Digits isDigit (c :: s).

Inductive StrIntegerLiteral : jsstring -> Prop :=
  | Lit_decimal s : Digits Builtin.isDecimalDigit s -> StrIntegerLiteral s
  | Lit_plus s : Digits Builtin.isDecimalDigit s -> StrIntegerLiteral (43%N :: s)
  | Lit_minus s : Digits Builtin.isDecimalDigit s -> StrIntegerLiteral (45%N :: s)
  | Lit_binary c s :
      c = 98%N \/ c = 66%N -> Digits isBinaryDigit s -> StrIntegerLiteral (48%N :: c :: s)
  | Lit_octal c s :
      c = 111%N \/ c = 79%N -> Digits isOctalDigit s -> StrIntegerLiteral (48%N :: c :: s)
  | Lit_hex c s :
      c = 120%N \/ c = 88%N -> Digits isHexDigit s -> StrIntegerLiteral (48%N :: c :: s).

Definition StrWhiteSpace (s : jsstring) : Prop :=
  Forall (fun c => Builtin.StrWhiteSpaceChar c = true) s.

Inductive StringIntegerLiteral : jsstring -> Prop :=
  | SIL_empty s : StrWhiteSpace s -> StringIntegerLiteral s
  | SIL_literal before lit after :
      StrWhiteSpace before -> StrIntegerLiteral lit -> StrWhiteSpace after ->
      StringIntegerLiteral (before ++ lit ++ after).

(** * Decimal strings: [BigInt(z.toString())] is [z] *)

Module DecimalFacts.
Import Builtin.

Lemma digitValue_decimal (d : N) :
  (d < 10)%N -> digitValue 10 (48 + d) = Some d.
Proof.
  intros Hd. unfold digitValue.
  replace ((48 <=? 48 + d)%N) with true by (symmetry; apply N.leb_le; lia).
  replace ((48 + d <=? 57)%N) with true by (symmetry; apply N.leb_le; lia).
  cbn [andb]. replace (48 + d - 48)%N with d by lia.
  apply N.ltb_lt in Hd. now rewrite Hd.
Qed.

Lemma digitValue_isDecimalDigit (c : N) :
  isDecimalDigit c = true -> exists d, digitValue 10 c = Some d /\ c = (48 + d)%N /\ (d < 10)%N.
Proof.
  unfold isDecimalDigit. intros H. apply andb_prop in H as [H1 H2].
  apply N.leb_le in H1, H2. exists (c - 48)%N.
  replace c with (48 + (c - 48))%N at 1 by lia.
  rewrite digitValue_decimal by lia. repeat split; lia.
Qed.

Lemma digitsValue_app (radix : N) (l1 l2 : jsstring) (acc : N) :
  digitsValue radix acc (l1 ++ l2) =
  match digitsValue radix acc l1 with
  | Some v => digitsValue radix v l2
  | None => None
  end.
Proof.
  revert acc. induction l1 as [|c l1 IH]; intros acc; cbn; [reflexivity|].
  destruct (digitValue radix c); [apply IH | reflexivity].
Qed.

Lemma digitsOf_app (fuel : nat) (n : N) (acc : jsstring) :
  digitsOf fuel n acc = digitsOf fuel n [] ++ acc.
Proof.
  revert n acc. induction fuel as [|fuel IH]; intros n acc; cbn; [reflexivity|].
  destruct (n / 10 =? 0)%N; [reflexivity|].
  rewrite IH, (IH _ [_]), <- app_assoc. reflexivity.
Qed.

Lemma digitsOf_value (fuel : nat) (n : N) :
  (n < 2 ^ N.of_nat (S fuel))%N ->
  digitsValue 10 0 (digitsOf fuel n []) = Some n.
Proof.
  revert n. induction fuel as [|fuel IH]; intros n Hn.
  - cbn in Hn. cbn [digitsOf digitsValue].
    assert (n mod 10 = n)%N as -> by (apply N.mod_small; lia).
    rewrite digitValue_decimal by lia. f_equal.
  - cbn [digitsOf].
    assert (n mod 10 < 10)%N as Hm by (apply N.mod_lt; lia).
    pose proof (N.div_mod n 10 ltac:(lia)) as Hdm.
    destruct (N.eqb_spec (n / 10) 0) as [Hz|Hz].
    + cbn [digitsValue]. rewrite digitValue_decimal by lia. f_equal. lia.
    + rewrite digitsOf_app, digitsValue_app, IH.
      * cbn [digitsValue]. rewrite digitValue_decimal by lia. f_equal. lia.
      * rewrite Nat2N.inj_succ, N.pow_succ_r' in Hn.
        clear IH. set (p := (2 ^ N.of_nat (S fuel))%N) in *. clearbody p.
        apply N.Div0.div_lt_upper_bound. lia.
Qed.

Lemma digitsOf_digits (fuel : nat) (n : N) (acc : jsstring) :
  Forall (fun c => isDecimalDigit c = true) acc ->
  Forall (fun c => isDecimalDigit c = true) (digitsOf fuel n acc).
Proof.
  revert n acc. induction fuel as [|fuel IH]; intros n acc Hacc;
    assert (isDecimalDigit (48 + n mod 10) = true) as Hd
      by (pose proof (N.mod_lt n 10 ltac:(lia)) as Hm; unfold isDecimalDigit;
          revert Hm; generalize (n mod 10)%N; intros m Hm;
          apply andb_true_intro; split; apply N.leb_le; lia).
  - cbn. constructor; assumption.
  - cbn [digitsOf]. destruct (n / 10 =? 0)%N.
    + constructor; assumption.
    + apply IH. constructor; assumption.
Qed.

Lemma digitsOf_nonempty (fuel : nat) (n : N) (acc : jsstring) :
  digitsOf fuel n acc <> [].
Proof.
  rewrite digitsOf_app. destruct fuel; cbn; [discriminate|].
  destruct (n / 10 =? 0)%N; [discriminate|].
  rewrite digitsOf_app. intros H. apply app_eq_nil in H as [H _].
  apply app_eq_nil in H as [_ H]. discriminate.
Qed.

Lemma NtoString_value (n : N) : digitsValue 10 0 (NtoString n) = Some n.
Proof.
  unfold NtoString. apply digitsOf_value.
  rewrite Nat2N.inj_succ, N2Nat.id.
  destruct (N.eq_dec n 0%N) as [->|Hn]; [reflexivity|].
  apply N.log2_spec. lia.
Qed.

Lemma NtoString_digits (n : N) :
  Forall (fun c => isDecimalDigit c = true) (NtoString n).
Proof. apply digitsOf_digits. constructor. Qed.

Lemma NtoString_nonempty (n : N) : NtoString n <> [].
Proof. apply digitsOf_nonempty. Qed.

Lemma digits1_NtoString (n : N) : digits1 10 (NtoString n) = Some (Z.of_N n).
Proof.
  unfold digits1. pose proof (NtoString_nonempty n) as Hne.
  destruct (NtoString n) eqn:E; [congruence|].
  rewrite <- E, NtoString_value. reflexivity.
Qed.

(** Code units that are neither white space nor a sign nor a letter. *)
Lemma isDecimalDigit_plain (c : N) :
  isDecimalDigit c = true ->
  StrWhiteSpaceChar c = false /\ (c =? 43)%N = false /\ (c =? 45)%N = false
  /\ forall a b, (a <? 48)%N = false -> (57 <? a)%N = true ->
                 (b <? 48)%N = false -> (57 <? b)%N = true -> isChar c a b = false.
Proof.
  unfold isDecimalDigit, StrWhiteSpaceChar, isChar. intros H.
  apply andb_prop in H as [H1 H2]. apply N.leb_le in H1, H2.
  repeat split.
  - repeat match goal with
           | |- context [(?a <=? ?b)%N] => destruct (N.leb_spec a b); try lia
           | |- context [(?a =? ?b)%N] => destruct (N.eqb_spec a b); try lia
           end; reflexivity.
  - apply N.eqb_neq. lia.
  - apply N.eqb_neq. lia.
  - intros a b Ha1 Ha2 Hb1 Hb2. apply N.ltb_lt in Ha2, Hb2.
    apply orb_false_intro; apply N.eqb_neq; lia.
Qed.

Lemma trimStart_plain (c : N) (s : jsstring) :
  StrWhiteSpaceChar c = false -> trimStart (c :: s) = c :: s.
Proof. intros H. cbn. now rewrite H. Qed.

Lemma trimEnd_plain (s : jsstring) (c : N) :
  StrWhiteSpaceChar c = false -> trimEnd (s ++ [c]) = s ++ [c].
Proof.
  intros H. unfold trimEnd. rewrite rev_app_distr. cbn [rev app].
  rewrite trimStart_plain by assumption.
  change (c :: rev s) with ([c] ++ rev s).
  rewrite rev_app_distr, rev_involutive. reflexivity.
Qed.

Lemma trim_plain (s : jsstring) :
  Forall (fun c => StrWhiteSpaceChar c = false) s -> trim s = s.
Proof.
  intros H. unfold trim.
  destruct s as [|c s]; [reflexivity|].
  rewrite trimStart_plain by (now inversion H).
  destruct (exists_last (l := c :: s) ltac:(discriminate)) as (s' & c' & E).
  rewrite E in *. apply trimEnd_plain.
  rewrite Forall_app in H. destruct H as [_ H]. now inversion H.
Qed.

(** The decimal string of an integer reads back as that integer. *)
Lemma StringToBigInt_toString (z : Z) : StringToBigInt (toString z) = Some z.
Proof.
  unfold StringToBigInt, StrIntegerLiteralValue, toString.
  pose proof (NtoString_digits (Z.abs_N z)) as Hd.
  pose proof (NtoString_nonempty (Z.abs_N z)) as Hne.
  pose proof (digits1_NtoString (Z.abs_N z)) as Hv.
  assert (Forall (fun c => StrWhiteSpaceChar c = false) (NtoString (Z.abs_N z))) as Hws.
  { eapply Forall_impl; [exact Hd|]. intros c Hc. now apply isDecimalDigit_plain. }
  destruct (Z.ltb_spec z 0) as [Hneg|Hpos].
  - rewrite trim_plain by (constructor; [reflexivity | assumption]).
    cbn [N.eqb Pos.eqb]. rewrite Hv. cbn. f_equal. lia.
  - rewrite trim_plain by assumption.
    destruct (NtoString (Z.abs_N z)) as [|c0 rest] eqn:E; [congruence|].
    inversion Hd as [|? ? Hc0 Hrest]; subst.
    destruct (isDecimalDigit_plain _ Hc0) as (_ & -> & -> & _).
    assert (digits1 10 (c0 :: rest) = Some z) as Hz by (rewrite Hv; f_equal; lia).
    destruct rest as [|c1 ds]; [exact Hz|].
    inversion Hrest as [|? ? Hc1 _]; subst.
    destruct (isDecimalDigit_plain _ Hc1) as (_ & _ & _ & Hl).
    rewrite !Hl by reflexivity. rewrite !andb_false_r. exact Hz.
Qed.

Lemma BigInt_toString (z : Z) : BigInt (toString z) = Return z.
Proof. unfold BigInt. now rewrite StringToBigInt_toString. Qed.

Lemma toString_inj (a b : Z) : toString a = toString b -> a = b.
Proof.
  intros H. pose proof (StringToBigInt_toString a) as Ha.
  rewrite H, StringToBigInt_toString in Ha. congruence.
Qed.

End DecimalFacts.

(** * The bit layout *)

Module Layout.

Lemma lor_mul_pow2_small (a b n : Z) :
  0 <= n -> 0 <= b < 2 ^ n -> Z.lor (a * 2 ^ n) b = a * 2 ^ n + b.
Proof.
  intros Hn Hb.
  assert (Z.land (a * 2 ^ n) b = 0) as Hland.
  { apply Z.bits_inj'. intros i Hi. rewrite Z.land_spec, Z.bits_0.
    destruct (Z.lt_ge_cases i n) as [Hlt|Hge].
    - rewrite Z.mul_pow2_bits_low by lia. reflexivity.
    - rewrite <- (Z.mod_small b (2 ^ n)) by lia.
      rewrite Z.mod_pow2_bits_high by lia. apply andb_false_r. }
  rewrite <- Z.lxor_lor by exact Hland.
  symmetry. apply Z.add_nocarry_lxor. exact Hland.
Qed.

(** The packed value as a sum: each field sits in its own bit range. *)
Lemma encode_sum (off dc w seq : Z) :
  0 <= dc <= 31 -> 0 <= w <= 31 -> 0 <= seq <= 4095 ->
  encode (mkFields off dc w seq) = off * 4194304 + dc * 131072 + w * 4096 + seq.
Proof.
  intros Hdc Hw Hseq. unfold encode. cbn [timestampOffset fieldDatacenterId fieldWorkerId fieldSequence].
  change TIMESTAMP_SHIFT with 22. change DATACENTER_SHIFT with 17.
  change WORKER_SHIFT with 12.
  rewrite !Z.shiftl_mul_pow2 by lia.
  change (2 ^ 22) with 4194304. change (2 ^ 17) with 131072.
  change (2 ^ 12) with 4096.
  pose proof (lor_mul_pow2_small off (dc * 131072) 22 ltac:(lia)
                ltac:(change (2 ^ 22) with 4194304; lia)) as H1.
  pose proof (lor_mul_pow2_small (off * 32 + dc) (w * 4096) 17 ltac:(lia)
                ltac:(change (2 ^ 17) with 131072; lia)) as H2.
  pose proof (lor_mul_pow2_small ((off * 32 + dc) * 32 + w) seq 12 ltac:(lia)
                ltac:(change (2 ^ 12) with 4096; lia)) as H3.
  change (2 ^ 22) with 4194304 in H1. change (2 ^ 17) with 131072 in H2.
  change (2 ^ 12) with 4096 in H3.
  rewrite H1.
  replace (off * 4194304 + dc * 131072) with ((off * 32 + dc) * 131072) by lia.
  rewrite H2.
  replace ((off * 32 + dc) * 131072 + w * 4096)
    with (((off * 32 + dc) * 32 + w) * 4096) by lia.
  rewrite H3. lia.
Qed.

Lemma decode_sum (off dc w seq : Z) :
  0 <= dc <= 31 -> 0 <= w <= 31 -> 0 <= seq <= 4095 ->
  let id := off * 4194304 + dc * 131072 + w * 4096 + seq in
  Z.shiftr id TIMESTAMP_SHIFT = off
  /\ Z.land (Z.shiftr id DATACENTER_SHIFT) MAX_DATACENTER_ID = dc
  /\ Z.land (Z.shiftr id WORKER_SHIFT) MAX_WORKER_ID = w
  /\ Z.land id MAX_SEQUENCE = seq.
Proof.
  intros Hdc Hw Hseq id.
  change TIMESTAMP_SHIFT with 22. change DATACENTER_SHIFT with 17.
  change WORKER_SHIFT with 12.
  change MAX_DATACENTER_ID with (Z.ones 5). change MAX_WORKER_ID with (Z.ones 5).
  change MAX_SEQUENCE with (Z.ones 12).
  rewrite !Z.land_ones, !Z.shiftr_div_pow2 by lia.
  change (2 ^ 22) with 4194304. change (2 ^ 17) with 131072.
  change (2 ^ 12) with 4096. change (2 ^ 5) with 32.
  subst id. repeat split; Z.div_mod_to_equations; lia.
Qed.

(** [(sequence + 1) & MAX_SEQUENCE] is the increment modulo 4096. *)
Lemma land_MAX_SEQUENCE (n : Z) : Z.land n MAX_SEQUENCE = n mod 4096.
Proof. change MAX_SEQUENCE with (Z.ones 12). now rewrite Z.land_ones by lia. Qed.

End Layout.

(** * Rounding to doubles *)

Module DoubleFacts.
Import Double.

Lemma roundToMultiple_cases m a :
  0 < m ->
  let q := a / m in
  let r := a mod m in
  a = q * m + r /\ 0 <= r < m
  /\ ((roundToMultiple m a = q * m /\ (2 * r < m \/ (2 * r = m /\ Z.odd q = false)))
      \/ (roundToMultiple m a = (q + 1) * m /\ (m < 2 * r \/ (2 * r = m /\ Z.odd q = true)))).
Proof.
  intros Hm q r. subst q r.
  pose proof (Z.div_mod a m ltac:(lia)) as Hdm.
  pose proof (Z.mod_pos_bound a m Hm) as Hr.
  split; [lia|]. split; [exact Hr|].
  unfold roundToMultiple.
  destruct (Z.gtb_spec (2 * (a mod m)) m) as [Hgt|Hle]; cbn [orb].
  - right. split; [reflexivity | lia].
  - destruct (Z.eqb_spec (2 * (a mod m)) m) as [Heq|Hne]; cbn [andb].
    + destruct (Z.odd (a / m)) eqn:Hodd.
      * right. split; [reflexivity | right; split; [exact Heq | reflexivity]].
      * left. split; [reflexivity | right; split; [exact Heq | reflexivity]].
    + left. split; [reflexivity | lia].
Qed.

Lemma roundToMultiple_mono m a b :
  0 < m -> a <= b -> roundToMultiple m a <= roundToMultiple m b.
Proof.
  intros Hm Hab.
  destruct (roundToMultiple_cases m a Hm) as (Ea & Hra & Ca).
  destruct (roundToMultiple_cases m b Hm) as (Eb & Hrb & Cb).
  assert (a / m <= b / m) as Hq by (apply Z.div_le_mono; lia).
  destruct (Z.eq_dec (a / m) (b / m)) as [Heq|Hne].
  - rewrite Heq in *.
    destruct Ca as [[-> Ca]|[-> Ca]]; destruct Cb as [[-> Cb]|[-> Cb]]; try nia.
    destruct Ca as [Ca|[Ca Oa]]; destruct Cb as [Cb|[Cb Ob]]; try nia; congruence.
  - assert (a / m + 1 <= b / m) by lia.
    destruct Ca as [[-> _]|[-> _]]; destruct Cb as [[-> _]|[-> _]]; nia.
Qed.

Lemma roundToMultiple_exact m a :
  0 < m -> a mod m = 0 -> roundToMultiple m a = a.
Proof.
  intros Hm Hr. destruct (roundToMultiple_cases m a Hm) as (Ea & _ & C).
  rewrite Hr in *. destruct C as [[-> _]|[_ C]]; lia.
Qed.

Lemma roundToMultiple_bounds m a :
  0 < m -> a / m * m <= roundToMultiple m a <= (a / m + 1) * m.
Proof.
  intros Hm. destruct (roundToMultiple_cases m a Hm) as (_ & _ & [[-> _]|[-> _]]); nia.
Qed.

(** From 2^53 on, a magnitude with exponent [e] sits between 2^(e+52) and
    2^(e+53), and so does what it rounds to. *)
Lemma roundMagnitude_large a :
  2 ^ 53 <= a ->
  let e := Z.log2 a - 52 in
  1 <= e /\ 2 ^ 52 * 2 ^ e <= a < 2 ^ 53 * 2 ^ e
  /\ 2 ^ 52 * 2 ^ e <= roundMagnitude a <= 2 ^ 53 * 2 ^ e.
Proof.
  intros Ha e.
  assert (53 <= Z.log2 a) as Hlog by (apply Z.log2_le_pow2; lia).
  destruct (Z.log2_spec a ltac:(lia)) as [Hlo Hhi].
  assert (1 <= e) as He by (subst e; lia).
  assert (0 < 2 ^ e) as Hm by (apply Z.pow_pos_nonneg; lia).
  assert (2 ^ Z.log2 a = 2 ^ 52 * 2 ^ e) as E1
    by (rewrite <- Z.pow_add_r by lia; f_equal; subst e; lia).
  assert (2 ^ Z.succ (Z.log2 a) = 2 ^ 53 * 2 ^ e) as E2
    by (rewrite <- Z.pow_add_r by lia; f_equal; subst e; lia).
  rewrite E1 in Hlo. rewrite E2 in Hhi.
  split; [exact He|]. split; [lia|].
  unfold roundMagnitude. destruct (Z.ltb_spec a (2 ^ 53)); [lia|]. fold e.
  pose proof (roundToMultiple_bounds (2 ^ e) a Hm) as Hb.
  assert (2 ^ 52 <= a / 2 ^ e) by (apply Z.div_le_lower_bound; lia).
  assert (a / 2 ^ e < 2 ^ 53) by (apply Z.div_lt_upper_bound; lia).
  nia.
Qed.

Lemma roundMagnitude_exact a : 0 <= a <= 2 ^ 53 -> roundMagnitude a = a.
Proof.
  intros Ha. unfold roundMagnitude.
  destruct (Z.ltb_spec a (2 ^ 53)); [reflexivity|].
  assert (a = 2 ^ 53) as -> by lia. reflexivity.
Qed.

Lemma roundMagnitude_mono a b :
  0 <= a -> a <= b -> roundMagnitude a <= roundMagnitude b.
Proof.
  intros Ha Hab.
  destruct (Z.lt_ge_cases b (2 ^ 53)) as [Hb|Hb].
  - rewrite !roundMagnitude_exact by lia. exact Hab.
  - destruct (roundMagnitude_large b Hb) as (Heb & Hbb & Hrb).
    destruct (Z.lt_ge_cases a (2 ^ 53)) as [Ha'|Ha'].
    + rewrite (roundMagnitude_exact a) by lia.
      assert (2 <= 2 ^ (Z.log2 b - 52))
        by (change 2 with (2 ^ 1) at 1; apply Z.pow_le_mono_r; lia).
      nia.
    + destruct (roundMagnitude_large a Ha') as (Hea & Haa & Hra).
      assert (Z.log2 a <= Z.log2 b) as Hlog by (apply Z.log2_le_mono; lia).
      destruct (Z.eq_dec (Z.log2 a) (Z.log2 b)) as [Heq|Hne].
      * unfold roundMagnitude.
        destruct (Z.ltb_spec a (2 ^ 53)); [lia|].
        destruct (Z.ltb_spec b (2 ^ 53)); [lia|].
        rewrite Heq. apply roundToMultiple_mono; [apply Z.pow_pos_nonneg|]; lia.
      * assert (2 ^ 53 * 2 ^ (Z.log2 a - 52) <= 2 ^ 52 * 2 ^ (Z.log2 b - 52)).
        { rewrite <- !Z.pow_add_r by lia. apply Z.pow_le_mono_r; lia. }
        lia.
Qed.

Lemma roundMagnitude_nonneg a : 0 <= a -> 0 <= roundMagnitude a.
Proof.
  intros Ha. rewrite <- (roundMagnitude_exact 0) by lia.
  apply roundMagnitude_mono; lia.
Qed.

(** Integers of magnitude up to 2^53 are doubles. *)
Lemma round_exact x : Z.abs x <= 2 ^ 53 -> round x = x.
Proof.
  intros Hx. unfold round. rewrite roundMagnitude_exact by lia.
  destruct x; cbn; lia.
Qed.

(** Rounding to the nearest double keeps the order. *)
Lemma round_mono x y : x <= y -> round x <= round y.
Proof.
  intros Hxy. unfold round.
  pose proof (roundMagnitude_nonneg (Z.abs x) ltac:(lia)) as Hx.
  pose proof (roundMagnitude_nonneg (Z.abs y) ltac:(lia)) as Hy.
  destruct (Z.sgn_spec x) as [[Sx ->]|[[Sx ->]|[Sx ->]]];
    destruct (Z.sgn_spec y) as [[Sy ->]|[[Sy ->]|[Sy ->]]]; try lia.
  - pose proof (roundMagnitude_mono (Z.abs x) (Z.abs y) ltac:(lia) ltac:(lia)). lia.
  - pose proof (roundMagnitude_mono (Z.abs y) (Z.abs x) ltac:(lia) ltac:(lia)). lia.
Qed.

End DoubleFacts.

(** * The codec *)

Section Codec.
Variables (epoch' off dc w seq : Z).
Hypothesis Hdc : 0 <= dc <= 31.
Hypothesis Hw : 0 <= w <= 31.
Hypothesis Hseq : 0 <= seq <= 4095.

(** Decoding the decimal string of a packed value gives the three small
    fields back, whatever the offset; the timestamp is the offset as a
    double, plus the epoch, as a double. *)
Lemma parse_encode :
  parseSnowflakeId (Builtin.toString (encode (mkFields off dc w seq))) epoch' =
  Return {| Parsed.timestamp := Double.add (Double.ofBigInt off) epoch';
            Parsed.datacenterId := dc;
            Parsed.workerId := w;
            Parsed.sequence := seq;
            Parsed.date :=
              Builtin.TimeClip (Double.add (Double.ofBigInt off) epoch') |}.
Proof.
  unfold parseSnowflakeId. rewrite DecimalFacts.BigInt_toString.
  rewrite Layout.encode_sum by assumption.
  destruct (Layout.decode_sum off dc w seq Hdc Hw Hseq) as (-> & -> & -> & ->).
  reflexivity.
Qed.
End Codec.

(** C1 as stated fails: at epoch 2^53 and offset 1 the decoder returns the
    timestamp 9007199254740992, which is not epoch + offset: the sum is
    taken on doubles. *)
Lemma roundtrip_counterexample :
  ~ (forall epoch' timestampOffset dc w seq : Z,
       0 <= dc <= 31 -> 0 <= w <= 31 -> 0 <= seq <= 4095 ->
       0 <= timestampOffset < 2 ^ TIMESTAMP_BITS ->
       exists c,
         parseSnowflakeId
           (Builtin.toString (encode (mkFields timestampOffset dc w seq))) epoch'
         = Return c
         /\ Parsed.timestamp c = epoch' + timestampOffset
         /\ Parsed.datacenterId c = dc
         /\ Parsed.workerId c = w
         /\ Parsed.sequence c = seq).
Proof.
  intros H.
  destruct (H (2 ^ 53) 1 0 0 0) as (c & Hc & Ht & _);
    [lia | lia | lia | unfold TIMESTAMP_BITS; lia |].
  vm_compute in Hc. injection Hc as <-. vm_compute in Ht. discriminate.
Qed.

(** C1, amended.  Round trip: for every epoch with |epoch| + 2^41 <= 2^53
    and every field tuple with datacenterId and workerId in [0,31],
    sequence in [0,4095] and a non-negative 41-bit timestampOffset, decoding
    the encoded identifier with that epoch returns the same datacenterId,
    workerId and sequence, and the timestamp epoch + timestampOffset. *)
Theorem roundtrip_decode_encode (epoch' timestampOffset dc w seq : Z) :
  Z.abs epoch' + 2 ^ TIMESTAMP_BITS <= 2 ^ 53 ->
  0 <= dc <= 31 -> 0 <= w <= 31 -> 0 <= seq <= 4095 ->
  0 <= timestampOffset < 2 ^ TIMESTAMP_BITS ->
  exists c,
    parseSnowflakeId
      (Builtin.toString (encode (mkFields timestampOffset dc w seq))) epoch' = Return c
    /\ Parsed.timestamp c = epoch' + timestampOffset
    /\ Parsed.datacenterId c = dc
    /\ Parsed.workerId c = w
    /\ Parsed.sequence c = seq.
Proof.
  intros He Hdc Hw Hseq Hoff. eexists. split; [apply parse_encode; assumption|].
  cbn [Parsed.timestamp Parsed.datacenterId Parsed.workerId Parsed.sequence].
  change (2 ^ TIMESTAMP_BITS) with (2 ^ 41) in *.
  unfold Double.add, Double.ofBigInt.
  rewrite (DoubleFacts.round_exact timestampOffset) by lia.
  rewrite DoubleFacts.round_exact by lia.
  repeat split; lia.
Qed.

Lemma roundtrip_decode_encode_witness :
  exists c,
    parseSnowflakeId
      (Builtin.toString (encode (mkFields 123 5 10 0))) 1577836800000 = Return c
    /\ Parsed.timestamp c = 1577836800000 + 123
    /\ Parsed.datacenterId c = 5
    /\ Parsed.workerId c = 10
    /\ Parsed.sequence c = 0.
Proof.
  apply (roundtrip_decode_encode 1577836800000 123 5 10 0);
    unfold TIMESTAMP_BITS; lia.
Defined.

(** * The generator *)

Module GeneratorFacts.

Lemma createSnowflake_wellFormed config g :
  createSnowflake config = Return g ->
  wellFormed g /\ lastTimestamp g = -1 /\ sequence g = 0.
Proof.
  unfold createSnowflake, wellFormed.
  change MAX_DATACENTER_ID with 31. change MAX_WORKER_ID with 31.
  destruct (Z.ltb_spec (withDefault config "datacenterId" 0) 0);
    destruct (Z.gtb_spec (withDefault config "datacenterId" 0) 31);
    cbn [orb]; try discriminate.
  destruct (Z.ltb_spec (withDefault config "workerId" 0) 0);
    destruct (Z.gtb_spec (withDefault config "workerId" 0) 31);
    cbn [orb]; try discriminate.
  intros [= <-]. cbn. lia.
Qed.

Lemma createSnowflake_fields config g :
  createSnowflake config = Return g ->
  epoch g = withDefault config "epoch" DEFAULT_EPOCH
  /\ datacenterId g = withDefault config "datacenterId" 0
  /\ workerId g = withDefault config "workerId" 0.
Proof.
  unfold createSnowflake.
  destruct (_ || _); [discriminate|]. destruct (_ || _); [discriminate|].
  intros [= <-]. repeat split.
Qed.

(** The busy-wait returns the first reading after [lastTimestamp] and
    leaves the readings that follow it; it never throws. *)
Lemma waitForNextMillisecond_Return last timestamp clock t clock' :
  waitForNextMillisecond last timestamp clock = (Return t, clock') ->
  last < t /\ (timestamp <= last -> exists skipped,
                 clock = skipped ++ t :: clock' /\ Forall (fun r => r <= last) skipped).
Proof.
  revert timestamp. induction clock as [|now rest IH]; intros timestamp; cbn;
    destruct (Z.leb_spec timestamp last) as [Hle|Hgt]; try discriminate.
  - intros [= -> <-]. split; [lia|]. intros; lia.
  - intros H. destruct (Z.leb_spec now last) as [Hn|Hn].
    + destruct (IH now H) as [Hlt Hsk]. split; [exact Hlt|]. intros _.
      destruct (Hsk Hn) as (skipped & -> & Hall).
      exists (now :: skipped). split; [reflexivity|]. constructor; assumption.
    + assert (waitForNextMillisecond last now rest = (Return now, rest)) as E.
      { destruct rest; cbn; destruct (Z.leb_spec now last); try lia; reflexivity. }
      rewrite E in H. injection H as <- <-. split; [lia|]. intros _.
      exists []. split; [reflexivity | constructor].
  - intros [= -> <-]. split; [lia|]. intros; lia.
Qed.

Lemma waitForNextMillisecond_skips last timestamp skipped t clock' :
  timestamp <= last -> Forall (fun r => r <= last) skipped -> last < t ->
  waitForNextMillisecond last timestamp (skipped ++ t :: clock') = (Return t, clock').
Proof.
  intros Hts Hall Ht. revert timestamp Hts.
  induction Hall as [|r skipped Hr Hall IH]; intros timestamp Hts; cbn.
  - destruct (Z.leb_spec timestamp last); [|lia].
    destruct clock'; cbn; destruct (Z.leb_spec t last); try lia; reflexivity.
  - destruct (Z.leb_spec timestamp last); [|lia]. apply IH. exact Hr.
Qed.

Lemma waitForNextMillisecond_no_throw last timestamp clock e clock' :
  waitForNextMillisecond last timestamp clock <> (Throw e, clock').
Proof.
  revert timestamp. induction clock as [|now rest IH]; intros timestamp; cbn;
    destruct (Z.leb_spec timestamp last); try discriminate. apply IH.
Qed.

Lemma waitForNextMillisecond_pending last timestamp clock :
  timestamp <= last -> Forall (fun r => r <= last) clock ->
  waitForNextMillisecond last timestamp clock = (Pending, []).
Proof.
  intros Hts Hall. revert timestamp Hts.
  induction Hall as [|r rest Hr Hall IH]; intros timestamp Hts; cbn;
    destruct (Z.leb_spec timestamp last); try lia; [reflexivity|].
  apply IH. exact Hr.
Qed.

(** The closure's body, branch by branch. *)
Lemma nextFields_unfold g now rest :
  nextFields g (now :: rest) =
  if now <? lastTimestamp g then (Throw (Error clockMessage), rest)
  else if now =? lastTimestamp g then
    if Z.land (sequence g + 1) MAX_SEQUENCE =? 0 then
      match waitForNextMillisecond (lastTimestamp g) now rest with
      | (Return t, clock') =>
          (Return (fieldsOf (advanced g t 0), advanced g t 0), clock')
      | (Throw e, clock') => (Throw e, clock')
      | (Pending, clock') => (Pending, clock')
      end
    else
      let s := Z.land (sequence g + 1) MAX_SEQUENCE in
      (Return (fieldsOf (advanced g now s), advanced g now s), rest)
  else (Return (fieldsOf (advanced g now 0), advanced g now 0), rest).
Proof.
  unfold nextFields, bind, Date_now, ret, throw.
  destruct (now <? lastTimestamp g); [reflexivity|].
  destruct (now =? lastTimestamp g); [|reflexivity].
  destruct (Z.eqb_spec (Z.land (sequence g + 1) MAX_SEQUENCE) 0) as [E|E];
    [|reflexivity].
  rewrite E.
  destruct (waitForNextMillisecond (lastTimestamp g) now rest) as [[t|e|] clock'];
    reflexivity.
Qed.

Lemma generate_nextFields g clock :
  generate g clock =
  match nextFields g clock with
  | (Return (fields, g'), clock') => (Return (Builtin.toString (encode fields), g'), clock')
  | (Throw e, clock') => (Throw e, clock')
  | (Pending, clock') => (Pending, clock')
  end.
Proof.
  unfold generate, bind, ret.
  destruct (nextFields g clock) as [[[fields g']|e|] clock']; reflexivity.
Qed.

(** What a successful call of [nextFields] returns. *)
Lemma nextFields_Return g clock fields g' clock' :
  nextFields g clock = (Return (fields, g'), clock') ->
  exists now rest t s,
    clock = now :: rest /\ lastTimestamp g <= now
    /\ g' = advanced g t s /\ fields = fieldsOf g'
    /\ ((lastTimestamp g < now /\ t = now /\ s = 0 /\ clock' = rest)
        \/ (now = lastTimestamp g /\ t = now
            /\ s = (sequence g + 1) mod 4096 /\ s <> 0 /\ clock' = rest)
        \/ (now = lastTimestamp g /\ (sequence g + 1) mod 4096 = 0 /\ s = 0
            /\ lastTimestamp g < t
            /\ exists skipped, rest = skipped ++ t :: clock'
                               /\ Forall (fun r => r <= lastTimestamp g) skipped)).
Proof.
  destruct clock as [|now rest]; [discriminate|].
  rewrite nextFields_unfold.
  destruct (Z.ltb_spec now (lastTimestamp g)) as [Hlt|Hge]; [discriminate|].
  destruct (Z.eqb_spec now (lastTimestamp g)) as [Heq|Hne].
  - rewrite Layout.land_MAX_SEQUENCE.
    destruct (Z.eqb_spec ((sequence g + 1) mod 4096) 0) as [Hz|Hnz].
    + destruct (waitForNextMillisecond (lastTimestamp g) now rest)
        as [[t|e|] c] eqn:Hwait; try discriminate.
      intros [= <- <- <-].
      apply waitForNextMillisecond_Return in Hwait as [Hlt Hsk].
      exists now, rest, t, 0. repeat split; try lia.
      right; right. repeat split; try assumption. apply Hsk. lia.
    + cbv zeta. intros [= <- <- <-].
      exists now, rest, now, ((sequence g + 1) mod 4096).
      repeat split; try lia. right; left. repeat split; assumption.
  - intros [= <- <- <-]. exists now, rest, now, 0.
    repeat split; try lia. left. repeat split; lia.
Qed.

Lemma lastIdentifier_sum g :
  wellFormed g ->
  lastIdentifier g =
  Double.sub (lastTimestamp g) (epoch g) * 4194304 + datacenterId g * 131072
  + workerId g * 4096 + sequence g.
Proof. intros (Hdc & Hw & Hseq). now apply Layout.encode_sum. Qed.

(** One successful call: the generator stays well formed, keeps its
    configuration, moves to a later state and emits the decimal string of
    that state's identifier. *)
Lemma generate_step g clock id g' clock' :
  wellFormed g ->
  generate g clock = (Return (id, g'), clock') ->
  wellFormed g' /\ epoch g' = epoch g /\ datacenterId g' = datacenterId g
  /\ workerId g' = workerId g
  /\ id = Builtin.toString (lastIdentifier g')
  /\ precedes g g'.
Proof.
  intros Hwf. rewrite generate_nextFields.
  destruct (nextFields g clock) as [[[fields g1]|e|] c] eqn:Hnext; try discriminate.
  intros [= <- <- <-].
  apply nextFields_Return in Hnext
    as (now & rest & t & s & -> & Hge & -> & -> & Hcases).
  pose proof Hwf as (Hdc & Hw & Hseq).
  assert (0 <= s <= 4095 /\
          (lastTimestamp g < t \/ (t = lastTimestamp g /\ sequence g < s))) as [Hs Hup].
  { destruct Hcases as [(? & -> & -> & _)|[(-> & -> & -> & Hnz & _)|(-> & _ & -> & ? & _)]].
    - lia.
    - pose proof (Z.mod_pos_bound (sequence g + 1) 4096 ltac:(lia)) as Hb.
      split; [lia|]. right. split; [reflexivity|].
      destruct (Z.eq_dec (sequence g) 4095) as [E|E].
      + rewrite E in Hnz. exfalso. apply Hnz. reflexivity.
      + rewrite Z.mod_small by lia. lia.
    - lia. }
  assert (wellFormed (advanced g t s)) as Hwf' by (unfold wellFormed; cbn; lia).
  repeat split; try reflexivity; try (cbn; lia).
  unfold precedes. cbn. exact Hup.
Qed.

Lemma generate_new_tick g now rest :
  lastTimestamp g < now ->
  generate g (now :: rest)
  = (Return (Builtin.toString (encode (fieldsOf (advanced g now 0))),
             advanced g now 0), rest).
Proof.
  intros Hlt. rewrite generate_nextFields, nextFields_unfold.
  destruct (Z.ltb_spec now (lastTimestamp g)); [lia|].
  destruct (Z.eqb_spec now (lastTimestamp g)); [lia|]. reflexivity.
Qed.

Lemma calls_all_Return n : forall g clock (ids : list jsstring),
  calls n g clock = Return <$> ids -> length ids = n.
Proof.
  induction n as [|n IH]; intros g clock ids; cbn [calls].
  - destruct ids; [reflexivity | discriminate].
  - destruct (generate g clock) as [[[id g']|e|] clock'];
      destruct ids as [|x ids]; try discriminate; cbn.
    intros [= _ H]. f_equal. eapply IH. exact H.
Qed.

Lemma generate_no_throw_from g now rest e clock' :
  lastTimestamp g <= now -> generate g (now :: rest) <> (Throw e, clock').
Proof.
  intros Hge. rewrite generate_nextFields, nextFields_unfold.
  destruct (Z.ltb_spec now (lastTimestamp g)); [lia|].
  destruct (now =? lastTimestamp g); [|discriminate].
  destruct (Z.land (sequence g + 1) MAX_SEQUENCE =? 0); [|discriminate].
  destruct (waitForNextMillisecond (lastTimestamp g) now rest) as [[t|e'|] c] eqn:Hwait;
    try discriminate.
  exfalso. eapply waitForNextMillisecond_no_throw. exact Hwait.
Qed.

(** While the offset is in its 41 bits, the identifier is a
    non-negative integer below 2^63. *)
Lemma lastIdentifier_63_bits g :
  wellFormed g ->
  0 <= lastTimestamp g - epoch g < 2 ^ TIMESTAMP_BITS ->
  0 <= lastIdentifier g < 2 ^ 63.
Proof.
  intros Hwf Hoff. rewrite lastIdentifier_sum by exact Hwf.
  destruct Hwf as (Hdc & Hw & Hseq).
  change (2 ^ TIMESTAMP_BITS) with 2199023255552 in Hoff.
  unfold Double.sub. rewrite DoubleFacts.round_exact by lia.
  change (2 ^ 63) with 9223372036854775808. lia.
Qed.

End GeneratorFacts.

(** * Runs of the generator *)

Module RunFacts.

(** A call takes its readings from the front of the clock. *)
Lemma waitForNextMillisecond_suffix last timestamp clock r clock' :
  waitForNextMillisecond last timestamp clock = (r, clock') ->
  exists used, clock = used ++ clock'.
Proof.
  revert timestamp. induction clock as [|now rest IH]; intros timestamp; cbn;
    destruct (timestamp <=? last).
  - intros [= _ <-]. exists []. reflexivity.
  - intros [= _ <-]. exists []. reflexivity.
  - intros H. destruct (IH _ H) as [used ->]. exists (now :: used). reflexivity.
  - intros [= _ <-]. exists []. reflexivity.
Qed.

Lemma generate_suffix g clock r clock' :
  generate g clock = (r, clock') -> exists used, clock = used ++ clock'.
Proof.
  rewrite GeneratorFacts.generate_nextFields.
  destruct clock as [|now rest].
  - cbn. intros [= _ <-]. exists []. reflexivity.
  - rewrite GeneratorFacts.nextFields_unfold.
    destruct (now <? lastTimestamp g); [intros [= _ <-]; exists [now]; reflexivity|].
    destruct (now =? lastTimestamp g);
      [|intros [= _ <-]; exists [now]; reflexivity].
    destruct (Z.land (sequence g + 1) MAX_SEQUENCE =? 0);
      [|intros [= _ <-]; exists [now]; reflexivity].
    destruct (waitForNextMillisecond (lastTimestamp g) now rest) as [w c] eqn:Hwait.
    apply waitForNextMillisecond_suffix in Hwait as [used ->].
    destruct w; intros [= _ <-]; exists (now :: used); reflexivity.
Qed.

(** One successful call, with where its tick comes from. *)
Lemma generate_progress g clock id g' clock' :
  wellFormed g ->
  generate g clock = (Return (id, g'), clock') ->
  wellFormed g' /\ epoch g' = epoch g /\ datacenterId g' = datacenterId g
  /\ workerId g' = workerId g
  /\ id = Builtin.toString (lastIdentifier g')
  /\ lastTimestamp g <= lastTimestamp g'
  /\ In (lastTimestamp g') clock.
Proof.
  intros Hwf Hgen.
  destruct (GeneratorFacts.generate_step _ _ _ _ _ Hwf Hgen)
    as (Hwf' & He & Hdc & Hw & Hid & _).
  repeat split; try assumption; try apply Hwf'.
  - rewrite GeneratorFacts.generate_nextFields in Hgen.
    destruct (nextFields g clock) as [[[fields g1]|e|] c] eqn:Hnext; try discriminate.
    injection Hgen as _ <- _.
    apply GeneratorFacts.nextFields_Return in Hnext
      as (now & rest & t & s & -> & Hge & -> & _ & Hcases).
    cbn. destruct Hcases as [(_ & -> & _)|[(_ & -> & _)|(_ & _ & _ & ? & _)]]; lia.
  - rewrite GeneratorFacts.generate_nextFields in Hgen.
    destruct (nextFields g clock) as [[[fields g1]|e|] c] eqn:Hnext; try discriminate.
    injection Hgen as _ <- _.
    apply GeneratorFacts.nextFields_Return in Hnext
      as (now & rest & t & s & -> & Hge & -> & _ & Hcases).
    cbn [lastTimestamp advanced].
    destruct Hcases as [(_ & -> & _)|[(_ & -> & _)|(_ & _ & _ & _ & skipped & -> & _)]].
    + left; reflexivity.
    + left; reflexivity.
    + right. apply in_or_app. right. left; reflexivity.
Qed.

(** The generator behind the [i]-th call, when that call returned. *)
Lemma calls_reach n : forall g clock i id,
  wellFormed g ->
  calls n g clock !! i = Some (Return id) ->
  exists g', wellFormed g' /\ epoch g' = epoch g /\ datacenterId g' = datacenterId g
             /\ workerId g' = workerId g
             /\ id = Builtin.toString (lastIdentifier g')
             /\ lastTimestamp g <= lastTimestamp g'
             /\ In (lastTimestamp g') clock.
Proof.
  induction n as [|n IH]; intros g clock i id Hwf; cbn [calls]; [discriminate|].
  destruct (generate g clock) as [[[id0 g0]|e|] clock'] eqn:Hgen.
  - destruct (generate_progress _ _ _ _ _ Hwf Hgen)
      as (Hwf0 & He & Hdc & Hw & Hid & Hle & Hin).
    destruct i as [|i]; cbn.
    + intros [= <-]. exists g0. repeat split; try assumption; apply Hwf0.
    + intros H. destruct (IH _ _ _ _ Hwf0 H) as (g' & Hwf' & He' & Hdc' & Hw' & Hid' & Hle' & Hin').
      apply generate_suffix in Hgen as [used ->].
      exists g'. repeat split; try apply Hwf'; try congruence; try lia.
      apply in_or_app. right. exact Hin'.
  - destruct i as [|i]; cbn; [discriminate|]. intros H.
    destruct (IH _ _ _ _ Hwf H) as (g' & Hwf' & He' & Hdc' & Hw' & Hid' & Hle' & Hin').
    apply generate_suffix in Hgen as [used ->].
    exists g'. repeat split; try apply Hwf'; try congruence; try lia.
    apply in_or_app. right. exact Hin'.
  - destruct i as [|[|i]]; discriminate.
Qed.

Lemma parse_lastIdentifier g epoch' :
  wellFormed g ->
  parseSnowflakeId (Builtin.toString (lastIdentifier g)) epoch'
  = Return {| Parsed.timestamp :=
                Double.add (Double.ofBigInt (Double.sub (lastTimestamp g) (epoch g)))
                           epoch';
              Parsed.datacenterId := datacenterId g;
              Parsed.workerId := workerId g;
              Parsed.sequence := sequence g;
              Parsed.date :=
                Builtin.TimeClip
                  (Double.add (Double.ofBigInt (Double.sub (lastTimestamp g) (epoch g)))
                              epoch') |}.
Proof. intros (Hdc & Hw & Hseq). now apply parse_encode. Qed.

Lemma precedes_trans g1 g2 g3 : precedes g1 g2 -> precedes g2 g3 -> precedes g1 g3.
Proof. unfold precedes. lia. Qed.

(** The generator behind the [i]-th call, when that call returned: a later
    state of the one the run started from. *)
Lemma calls_later n : forall g clock i id,
  wellFormed g ->
  calls n g clock !! i = Some (Return id) ->
  exists g', wellFormed g' /\ epoch g' = epoch g /\ datacenterId g' = datacenterId g
             /\ workerId g' = workerId g
             /\ id = Builtin.toString (lastIdentifier g')
             /\ precedes g g'
             /\ In (lastTimestamp g') clock.
Proof.
  induction n as [|n IH]; intros g clock i id Hwf; cbn [calls]; [discriminate|].
  destruct (generate g clock) as [[[id0 g0]|e|] clock'] eqn:Hgen.
  - destruct (GeneratorFacts.generate_step _ _ _ _ _ Hwf Hgen)
      as (Hwf0 & He & Hdc & Hw & Hid & Hprec).
    destruct (generate_progress _ _ _ _ _ Hwf Hgen) as (_ & _ & _ & _ & _ & _ & Hin).
    destruct i as [|i]; cbn.
    + intros [= <-]. exists g0. repeat split; try assumption; apply Hwf0.
    + intros H.
      destruct (IH _ _ _ _ Hwf0 H) as (g' & Hwf' & He' & Hdc' & Hw' & Hid' & Hprec' & Hin').
      apply generate_suffix in Hgen as [used ->].
      exists g'. repeat split; try apply Hwf'; try congruence.
      * eapply precedes_trans; eassumption.
      * apply in_or_app. right. exact Hin'.
  - destruct i as [|i]; cbn; [discriminate|]. intros H.
    destruct (IH _ _ _ _ Hwf H) as (g' & Hwf' & He' & Hdc' & Hw' & Hid' & Hprec' & Hin').
    apply generate_suffix in Hgen as [used ->].
    exists g'. repeat split; try apply Hwf'; try congruence.
    apply in_or_app. right. exact Hin'.
  - destruct i as [|[|i]]; discriminate.
Qed.

(** The generators behind two calls that returned: the later call's is a
    later state. *)
Lemma calls_pair n : forall g clock i j a b,
  wellFormed g -> (i < j)%nat ->
  calls n g clock !! i = Some (Return a) ->
  calls n g clock !! j = Some (Return b) ->
  exists ga gb,
    (wellFormed ga /\ epoch ga = epoch g /\ datacenterId ga = datacenterId g
     /\ workerId ga = workerId g /\ a = Builtin.toString (lastIdentifier ga)
     /\ In (lastTimestamp ga) clock)
    /\ (wellFormed gb /\ epoch gb = epoch g /\ datacenterId gb = datacenterId g
        /\ workerId gb = workerId g /\ b = Builtin.toString (lastIdentifier gb)
        /\ In (lastTimestamp gb) clock)
    /\ precedes ga gb.
Proof.
  induction n as [|n IH]; intros g clock i j a b Hwf Hij; cbn [calls]; [discriminate|].
  destruct j as [|j]; [lia|].
  destruct (generate g clock) as [[[id g0]|e|] clock'] eqn:Hgen.
  - destruct (GeneratorFacts.generate_step _ _ _ _ _ Hwf Hgen)
      as (Hwf0 & He & Hdc & Hw & Hid & Hprec).
    destruct (generate_progress _ _ _ _ _ Hwf Hgen) as (_ & _ & _ & _ & _ & _ & Hin).
    pose proof (generate_suffix _ _ _ _ Hgen) as [used Hused].
    destruct i as [|i]; cbn.
    + intros [= <-] Hb.
      destruct (calls_later _ _ _ _ _ Hwf0 Hb)
        as (gb & Hwfb & Heb & Hdcb & Hwb & Hidb & Hprecb & Hinb).
      exists g0, gb. split; [repeat split; try assumption; apply Hwf0|].
      split; [|exact Hprecb].
      repeat split; try apply Hwfb; try congruence.
      rewrite Hused. apply in_or_app. right. exact Hinb.
    + intros Ha Hb.
      destruct (IH g0 clock' i j a b Hwf0 ltac:(lia) Ha Hb)
        as (ga & gb & (Hwfa & Hea & Hdca & Hwa & Hida & Hina)
            & (Hwfb & Heb & Hdcb & Hwb & Hidb & Hinb) & Hp).
      exists ga, gb. rewrite Hused.
      split; [repeat split; try apply Hwfa; try congruence;
              apply in_or_app; right; exact Hina|].
      split; [|exact Hp].
      repeat split; try apply Hwfb; try congruence.
      apply in_or_app. right. exact Hinb.
  - pose proof (generate_suffix _ _ _ _ Hgen) as [used Hused].
    destruct i as [|i]; cbn; [discriminate|]. intros Ha Hb.
    destruct (IH g clock' i j a b Hwf ltac:(lia) Ha Hb)
      as (ga & gb & (Hwfa & Hea & Hdca & Hwa & Hida & Hina)
          & (Hwfb & Heb & Hdcb & Hwb & Hidb & Hinb) & Hp).
    exists ga, gb. rewrite Hused.
    split; [repeat split; try apply Hwfa; try congruence;
            apply in_or_app; right; exact Hina|].
    split; [|exact Hp].
    repeat split; try apply Hwfb; try congruence.
    apply in_or_app. right. exact Hinb.
  - destruct j; discriminate.
Qed.

(** A later state has an offset that is not smaller, rounded or not. *)
Lemma offset_mono ga gb :
  epoch ga = epoch gb -> precedes ga gb ->
  Double.sub (lastTimestamp ga) (epoch ga) <= Double.sub (lastTimestamp gb) (epoch gb).
Proof.
  intros He Hp. unfold Double.sub. apply DoubleFacts.round_mono.
  unfold precedes in Hp. lia.
Qed.

(** Where the subtraction of the epoch is exact, a later state has a larger
    identifier. *)
Lemma lastIdentifier_lt ga gb :
  wellFormed ga -> wellFormed gb ->
  epoch ga = epoch gb -> datacenterId ga = datacenterId gb -> workerId ga = workerId gb ->
  exactOffset (epoch ga) (lastTimestamp ga) ->
  exactOffset (epoch gb) (lastTimestamp gb) ->
  precedes ga gb ->
  lastIdentifier ga < lastIdentifier gb.
Proof.
  intros Hwfa Hwfb He Hdc Hw Hxa Hxb Hp.
  rewrite !GeneratorFacts.lastIdentifier_sum by assumption.
  unfold Double.sub, exactOffset in *.
  rewrite !DoubleFacts.round_exact by assumption.
  destruct Hwfa as (? & ? & ?). destruct Hwfb as (? & ? & ?).
  unfold precedes in Hp. lia.
Qed.

(** Of two successful calls at readings whose offsets are exact, the later
    one returns the larger value. *)
Lemma calls_increasing n g clock i j a b :
  wellFormed g ->
  Forall (exactOffset (epoch g)) clock ->
  (i < j)%nat ->
  calls n g clock !! i = Some (Return a) ->
  calls n g clock !! j = Some (Return b) ->
  exists va vb, Builtin.StringToBigInt a = Some va
                /\ Builtin.StringToBigInt b = Some vb /\ va < vb.
Proof.
  intros Hwf Hclock Hij Ha Hb.
  destruct (calls_pair _ _ _ _ _ _ _ Hwf Hij Ha Hb)
    as (ga & gb & (Hwfa & Hea & Hdca & Hwa & -> & Hina)
        & (Hwfb & Heb & Hdcb & Hwb & -> & Hinb) & Hp).
  exists (lastIdentifier ga), (lastIdentifier gb).
  rewrite !DecimalFacts.StringToBigInt_toString. split; [reflexivity|].
  split; [reflexivity|].
  rewrite Forall_forall in Hclock.
  apply lastIdentifier_lt; try assumption; try congruence.
  - rewrite Hea. apply Hclock. apply list_elem_of_In. exact Hina.
  - rewrite Heb. apply Hclock. apply list_elem_of_In. exact Hinb.
Qed.

Lemma calls_distinct n g clock (ids : list jsstring) :
  wellFormed g ->
  Forall (exactOffset (epoch g)) clock ->
  calls n g clock = Return <$> ids -> NoDup ids.
Proof.
  intros Hwf Hclock Hcalls. apply NoDup_alt. intros i j x Hi Hj.
  assert (forall k, ids !! k = Some x -> calls n g clock !! k = Some (Return x)) as Hlook.
  { intros k Hk. rewrite Hcalls, list_lookup_fmap, Hk. reflexivity. }
  apply Hlook in Hi, Hj.
  destruct (lt_eq_lt_dec i j) as [[Hlt|Heq]|Hgt]; [|exact Heq|].
  - destruct (calls_increasing _ _ _ _ _ _ _ Hwf Hclock Hlt Hi Hj)
      as (va & vb & Ha & Hb & Hab).
    rewrite Ha in Hb. injection Hb as ->. lia.
  - destruct (calls_increasing _ _ _ _ _ _ _ Hwf Hclock Hgt Hj Hi)
      as (va & vb & Ha & Hb & Hab).
    rewrite Ha in Hb. injection Hb as ->. lia.
Qed.

End RunFacts.

(** C2 as stated fails: with the accepted epoch -2^53 the readings 0 and 1
    have the same offset 2^53 as doubles, and two calls return the same
    identifier 2^75. *)
Lemma generate_unique_counterexample :
  ~ (forall (config : gmap string jsvalue) (g : Generator) (n : nat)
            (clock : list Z) (ids : list jsstring),
       createSnowflake config = Return g ->
       calls n g clock = Return <$> ids ->
       length ids = n /\ NoDup ids).
Proof.
  intros H.
  specialize (H {[ "epoch" := number (- 2 ^ 53) ]} (mkGenerator (- 2 ^ 53) 0 0 (-1) 0)
                2%nat [0; 1]
                [js "37778931862957161709568"; js "37778931862957161709568"]).
  destruct H as [_ Hnodup]; [vm_compute; reflexivity | vm_compute; reflexivity |].
  apply NoDup_cons in Hnodup as [Hnotin _]. apply Hnotin. left.
Qed.

(** C2, amended.  Uniqueness: for a generator that [createSnowflake]
    returned and clock readings that all differ from the epoch by at most
    2^53 (so that reading - epoch is exact), if each of [n] sequential calls
    returns an identifier, the [n] identifiers are pairwise distinct
    (whatever [n] is, so also beyond 4096 calls within one millisecond). *)
Theorem generate_unique (config : gmap string jsvalue) (g : Generator)
    (n : nat) (clock : list Z) (ids : list jsstring) :
  createSnowflake config = Return g ->
  Forall (exactOffset (epoch g)) clock ->
  calls n g clock = Return <$> ids ->
  length ids = n /\ NoDup ids.
Proof.
  intros Hcreate Hclock Hcalls.
  split; [eapply GeneratorFacts.calls_all_Return; exact Hcalls|].
  apply GeneratorFacts.createSnowflake_wellFormed in Hcreate as [Hwf _].
  eapply RunFacts.calls_distinct; eassumption.
Qed.

Lemma generate_unique_witness :
  length [js "4194304"; js "4194305"; js "8388608"] = 3%nat
  /\ NoDup [js "4194304"; js "4194305"; js "8388608"].
Proof.
  apply (generate_unique ∅ (mkGenerator DEFAULT_EPOCH 0 0 (-1) 0) 3
           [1577836800001; 1577836800001; 1577836800002]);
    [vm_compute; reflexivity | | vm_compute; reflexivity].
  repeat (apply Forall_cons; split; [unfold exactOffset, DEFAULT_EPOCH; cbn; lia|]).
  apply Forall_nil_2.
Defined.

(** 4097 calls while the clock stays in one millisecond: the first 4096
    take the sequence numbers 0 to 4095, the last one waits for the next
    millisecond and starts again at 0; all 4097 identifiers differ. *)
Example sequence_exhaustion_run :
  let g := mkGenerator DEFAULT_EPOCH 0 0 (-1) 0 in
  let t := 1577836800001 in
  let clock := repeat t 4097 ++ [t; t + 1] in
  let ids := returned (calls 4097 g clock) in
  calls 4097 g clock = Return <$> ids
  /\ NoDup ids
  /\ ids !! 4095%nat = Some (js "4198399")
  /\ ids !! 4096%nat = Some (js "8388608").
Proof.
  intros g t clock ids.
  assert (calls 4097 g clock = Return <$> ids) as Hcalls by (vm_compute; reflexivity).
  split; [exact Hcalls|]. split.
  - eapply (RunFacts.calls_distinct 4097 g clock); [| |exact Hcalls].
    + unfold wellFormed, g; cbn; lia.
    + apply Forall_forall. intros r Hr. apply list_elem_of_In in Hr.
      apply in_app_or in Hr as [Hr|Hr].
      * apply repeat_spec in Hr. subst r. unfold exactOffset, g, t, DEFAULT_EPOCH. cbn. lia.
      * unfold exactOffset, g, t, DEFAULT_EPOCH. cbn in Hr |- *.
        destruct Hr as [<-|[<-|[]]]; lia.
  - split; vm_compute; reflexivity.
Qed.


(** Nor are the identifiers ordered as integers when the offsets are
    rounded: with epoch -2^53 and the readings 0, 0, 1 the calls return
    2^75, 2^75 + 1 and 2^75 again. *)
Example rounded_offsets_run :
  calls 3 (mkGenerator (- 2 ^ 53) 0 0 (-1) 0) [0; 0; 1]
  = [Return (js "37778931862957161709568"); Return (js "37778931862957161709569");
     Return (js "37778931862957161709568")].
Proof. vm_compute. reflexivity. Qed.



(** C4. Same millisecond and new tick.  When the reading equals
    [lastTimestamp], the sequence becomes (sequence + 1) mod 4096.  If that
    is not 0 the call returns at once with it, reading the clock no further.
    If it is 0 the call re-reads the clock, skips every reading that is not
    after [lastTimestamp], and returns with the first later reading as the
    tick and sequence 0; while no such reading has come it is still waiting,
    and it never throws.  When the reading is after [lastTimestamp] the
    sequence is reset to 0. *)
Theorem generate_sequencing (g : Generator) (now : Z) (rest : list Z) :
  let next := (sequence g + 1) mod 4096 in
  let emitted (g' : Generator) := Builtin.toString (encode (fieldsOf g')) in
  Z.land (sequence g + 1) MAX_SEQUENCE = next
  /\ (now = lastTimestamp g -> next <> 0 ->
      generate g (now :: rest)
      = (Return (emitted (advanced g now next), advanced g now next), rest))
  /\ (now = lastTimestamp g -> next = 0 ->
      forall skipped t clock',
        rest = skipped ++ t :: clock' ->
        Forall (fun r => r <= lastTimestamp g) skipped -> lastTimestamp g < t ->
        generate g (now :: rest)
        = (Return (emitted (advanced g t 0), advanced g t 0), clock'))
  /\ (now = lastTimestamp g -> next = 0 ->
      Forall (fun r => r <= lastTimestamp g) rest ->
      generate g (now :: rest) = (Pending, []))
  /\ (now = lastTimestamp g ->
      forall e clock', generate g (now :: rest) <> (Throw e, clock'))
  /\ (lastTimestamp g < now ->
      generate g (now :: rest)
      = (Return (emitted (advanced g now 0), advanced g now 0), rest)).
Proof.
  intros next emitted. subst next emitted.
  split; [apply Layout.land_MAX_SEQUENCE|].
  repeat split.
  - intros -> Hnz.
    rewrite GeneratorFacts.generate_nextFields, GeneratorFacts.nextFields_unfold.
    rewrite Z.ltb_irrefl, Z.eqb_refl, Layout.land_MAX_SEQUENCE.
    apply Z.eqb_neq in Hnz. rewrite Hnz. reflexivity.
  - intros -> Hz skipped t clock' -> Hall Ht.
    rewrite GeneratorFacts.generate_nextFields, GeneratorFacts.nextFields_unfold.
    rewrite Z.ltb_irrefl, Z.eqb_refl, Layout.land_MAX_SEQUENCE, Hz. cbn [Z.eqb].
    rewrite GeneratorFacts.waitForNextMillisecond_skips by (try assumption; lia).
    reflexivity.
  - intros -> Hz Hall.
    rewrite GeneratorFacts.generate_nextFields, GeneratorFacts.nextFields_unfold.
    rewrite Z.ltb_irrefl, Z.eqb_refl, Layout.land_MAX_SEQUENCE, Hz. cbn [Z.eqb].
    rewrite GeneratorFacts.waitForNextMillisecond_pending by (try assumption; lia).
    reflexivity.
  - intros -> e clock'. apply GeneratorFacts.generate_no_throw_from. lia.
  - apply GeneratorFacts.generate_new_tick.
Qed.

(** After 4096 identifiers in millisecond 5 the call skips the readings 5
    and 4 and settles on 6. *)
Lemma generate_sequencing_witness :
  generate (mkGenerator 0 1 2 5 4095) [5; 5; 4; 6; 7]
  = (Return (js "25305088", mkGenerator 0 1 2 6 0), [7]).
Proof.
  pose proof (generate_sequencing (mkGenerator 0 1 2 5 4095) 5 [5; 4; 6; 7]) as H.
  cbv zeta in H. destruct H as (_ & _ & H & _).
  apply (H eq_refl eq_refl [5; 4] 6 [7] eq_refl).
  - repeat constructor; cbn; lia.
  - cbn; lia.
Defined.

(** C5. Clock regression: a call fails, with the error "Clock moved
    backwards. Refusing to generate id", exactly when the reading it takes
    first is strictly below [lastTimestamp]; it then has taken that one
    reading only, and no call throws anything else. *)
Theorem generate_clock_regression (g : Generator) (now : Z) (rest : list Z) :
  (fst (generate g (now :: rest)) = Throw (Error clockMessage) <-> now < lastTimestamp g)
  /\ (now < lastTimestamp g ->
      generate g (now :: rest) = (Throw (Error clockMessage), rest))
  /\ (forall e, fst (generate g (now :: rest)) = Throw e ->
                e = Error clockMessage /\ now < lastTimestamp g).
Proof.
  assert (now < lastTimestamp g ->
          generate g (now :: rest) = (Throw (Error clockMessage), rest)) as Hthrow.
  { intros Hlt.
    rewrite GeneratorFacts.generate_nextFields, GeneratorFacts.nextFields_unfold.
    apply Z.ltb_lt in Hlt. rewrite Hlt. reflexivity. }
  assert (forall e, fst (generate g (now :: rest)) = Throw e ->
                    e = Error clockMessage /\ now < lastTimestamp g) as Honly.
  { intros e He. destruct (Z.lt_ge_cases now (lastTimestamp g)) as [Hlt|Hge].
    - rewrite (Hthrow Hlt) in He. cbn in He. injection He as <-. split; [reflexivity | exact Hlt].
    - exfalso. destruct (generate g (now :: rest)) as [r clock'] eqn:Hgen.
      cbn in He. subst r.
      eapply GeneratorFacts.generate_no_throw_from; [|exact Hgen]. lia. }
  split; [|split; assumption].
  split.
  - intros H. apply Honly in H. apply H.
  - intros Hlt. rewrite (Hthrow Hlt). reflexivity.
Qed.

Lemma generate_clock_regression_witness :
  generate (mkGenerator DEFAULT_EPOCH 0 0 1577836801000 3) [1577836800000; 1577836802000]
  = (Throw (Error clockMessage), [1577836802000]).
Proof.
  apply (proj1 (proj2 (generate_clock_regression
                         (mkGenerator DEFAULT_EPOCH 0 0 1577836801000 3)
                         1577836800000 [1577836802000]))).
  cbn. lia.
Defined.

(** A generator that refused a reading is unchanged: the next call, at a
    later reading, goes on where the last successful one stopped. *)
Example regression_then_recovery :
  calls 3 (mkGenerator DEFAULT_EPOCH 0 0 (-1) 0)
        [1577836800002; 1577836800001; 1577836800002]
  = [Return (js "8388608"); Throw (Error clockMessage); Return (js "8388609")].
Proof. vm_compute. reflexivity. Qed.

(** C6. Range enforcement: [createSnowflake] throws "Datacenter ID must be
    between 0 and 31" exactly when datacenterId is outside [0,31], throws
    "Worker ID must be between 0 and 31" exactly when datacenterId is inside
    and workerId outside, and throws nothing else; otherwise it returns a
    generator with lastTimestamp = -1 and sequence = 0. *)
Theorem createSnowflake_validation (config : gmap string jsvalue) :
  let dc := withDefault config "datacenterId" 0 in
  let w := withDefault config "workerId" 0 in
  (createSnowflake config = Throw (Error (js "Datacenter ID must be between 0 and 31"))
   <-> dc < 0 \/ 31 < dc)
  /\ (createSnowflake config = Throw (Error (js "Worker ID must be between 0 and 31"))
      <-> 0 <= dc <= 31 /\ (w < 0 \/ 31 < w))
  /\ ((exists e, createSnowflake config = Throw e)
      <-> ~ (0 <= dc <= 31 /\ 0 <= w <= 31))
  /\ (createSnowflake config
      = Return (mkGenerator (withDefault config "epoch" DEFAULT_EPOCH) dc w (-1) 0)
      <-> 0 <= dc <= 31 /\ 0 <= w <= 31)
  /\ (forall g, createSnowflake config = Return g ->
                lastTimestamp g = -1 /\ sequence g = 0).
Proof.
  intros dc w.
  set (dm := js "Datacenter ID must be between 0 and 31").
  set (wm := js "Worker ID must be between 0 and 31").
  set (fresh := mkGenerator (withDefault config "epoch" DEFAULT_EPOCH) dc w (-1) 0).
  assert (dm <> wm) as Hmsg by (vm_compute; discriminate).
  assert (((dc < 0 \/ 31 < dc) /\ createSnowflake config = Throw (Error dm))
          \/ ((0 <= dc <= 31 /\ (w < 0 \/ 31 < w))
              /\ createSnowflake config = Throw (Error wm))
          \/ ((0 <= dc <= 31 /\ 0 <= w <= 31)
              /\ createSnowflake config = Return fresh)) as Hres.
  { unfold createSnowflake. fold dc w.
    change MAX_DATACENTER_ID with 31. change MAX_WORKER_ID with 31.
    destruct (Z.ltb_spec dc 0); destruct (Z.gtb_spec dc 31); cbn [orb];
      try (left; split; [lia | reflexivity]).
    destruct (Z.ltb_spec w 0); destruct (Z.gtb_spec w 31); cbn [orb];
      try (right; left; split; [lia | reflexivity]).
    right; right. split; [lia | reflexivity]. }
  destruct Hres as [[H E]|[[H E]|[H E]]]; rewrite E; clear E;
    repeat split; intros;
    first [ lia | discriminate | reflexivity | eexists; reflexivity | congruence
          | match goal with
            | Hex : exists _, _ |- _ => destruct Hex; discriminate
            | Hn : ~ _ |- _ => exfalso; apply Hn; lia
            | Hg : Return _ = Return _ |- _ => injection Hg as <-; reflexivity
            end ].
Qed.

Lemma createSnowflake_validation_witness :
  createSnowflake {[ "datacenterId" := number 32 ]}
  = Throw (Error (js "Datacenter ID must be between 0 and 31")).
Proof.
  apply (proj2 (proj1 (createSnowflake_validation {[ "datacenterId" := number 32 ]}))).
  right. vm_compute. reflexivity.
Defined.

Example createSnowflake_datacenterId_bounds :
  createSnowflake {[ "datacenterId" := number (-1) ]} = Throw (Error datacenterIdMessage)
  /\ createSnowflake {[ "datacenterId" := number 32 ]} = Throw (Error datacenterIdMessage)
  /\ createSnowflake {[ "datacenterId" := number 0 ]}
     = Return (mkGenerator DEFAULT_EPOCH 0 0 (-1) 0)
  /\ createSnowflake {[ "datacenterId" := number 31 ]}
     = Return (mkGenerator DEFAULT_EPOCH 31 0 (-1) 0).
Proof. repeat split; vm_compute; reflexivity. Qed.

Example createSnowflake_workerId_bounds :
  createSnowflake {[ "workerId" := number (-1) ]} = Throw (Error workerIdMessage)
  /\ createSnowflake {[ "workerId" := number 32 ]} = Throw (Error workerIdMessage)
  /\ createSnowflake {[ "workerId" := number 0 ]}
     = Return (mkGenerator DEFAULT_EPOCH 0 0 (-1) 0)
  /\ createSnowflake {[ "workerId" := number 31 ]}
     = Return (mkGenerator DEFAULT_EPOCH 0 31 (-1) 0).
Proof. repeat split; vm_compute; reflexivity. Qed.

(** C7 as stated fails: with an epoch in the future (2030-01-01) the
    generator is constructed, and a call at a reading of 2025-11-03 succeeds
    and packs a negative offset. *)
Lemma offset_range_counterexample :
  ~ (forall (config : gmap string jsvalue) g clock fields g' clock',
       createSnowflake config = Return g ->
       nextFields g clock = (Return (fields, g'), clock') ->
       0 <= timestampOffset fields < 2 ^ TIMESTAMP_BITS).
Proof.
  intros H.
  specialize (H {[ "epoch" := number 1893456000000 ]}
                (mkGenerator 1893456000000 0 0 (-1) 0)
                [1762128000000]
                (mkFields (-131328000000) 0 0 0)
                (mkGenerator 1893456000000 0 0 1762128000000 0)
                [] eq_refl eq_refl).
  cbn in H. lia.
Qed.

(** C7, amended.  A successful call packs the offset reading - epoch as the
    double subtraction gives it, for the reading it settles on (which becomes
    [lastTimestamp]); the offset is the exact difference when that is at most
    2^53 in magnitude, and it is non-negative and fits 41 bits exactly when
    epoch <= reading < epoch + 2^41.  Neither construction nor the call
    checks it. *)
Theorem generate_offset (g : Generator) (clock : list Z)
    (fields : Fields) (g' : Generator) (clock' : list Z) :
  nextFields g clock = (Return (fields, g'), clock') ->
  let now := lastTimestamp g' in
  In now clock
  /\ timestampOffset fields = Double.sub now (epoch g)
  /\ (Z.abs (now - epoch g) <= 2 ^ 53 -> timestampOffset fields = now - epoch g)
  /\ (0 <= timestampOffset fields < 2 ^ TIMESTAMP_BITS
      <-> epoch g <= now < epoch g + 2 ^ TIMESTAMP_BITS)
  /\ generate g clock = (Return (Builtin.toString (encode fields), g'), clock').
Proof.
  intros Hnext now. subst now.
  rewrite GeneratorFacts.generate_nextFields, Hnext.
  apply GeneratorFacts.nextFields_Return in Hnext
    as (now & rest & t & s & -> & Hge & -> & -> & Hcases).
  cbn [lastTimestamp advanced fieldsOf timestampOffset epoch].
  split.
  { destruct Hcases as [(_ & -> & _)|[(_ & -> & _)|(_ & _ & _ & _ & skipped & -> & _)]].
    - left; reflexivity.
    - left; reflexivity.
    - right. apply in_or_app. right. left; reflexivity. }
  split; [reflexivity|].
  split; [intros Hexact; apply DoubleFacts.round_exact; exact Hexact|].
  split; [|reflexivity].
  unfold Double.sub. change (2 ^ TIMESTAMP_BITS) with 2199023255552.
  split.
  - intros [Hlo Hhi].
    destruct (Z_lt_le_dec (t - epoch g) 0) as [Hneg|Hnonneg].
    + pose proof (DoubleFacts.round_mono (t - epoch g) (-1) ltac:(lia)) as Hm.
      rewrite (DoubleFacts.round_exact (-1)) in Hm by (cbn; lia). lia.
    + destruct (Z_lt_le_dec (t - epoch g) 2199023255552) as [Hsmall|Hbig]; [lia|].
      pose proof (DoubleFacts.round_mono 2199023255552 (t - epoch g) ltac:(lia)) as Hm.
      rewrite (DoubleFacts.round_exact 2199023255552) in Hm by (cbn; lia). lia.
  - intros Hrange.
    rewrite DoubleFacts.round_exact by (change (2 ^ 53) with 9007199254740992; lia).
    lia.
Qed.

Lemma generate_offset_witness :
  In 1577836800123 [1577836800123]
  /\ timestampOffset (mkFields 123 5 10 0) = Double.sub 1577836800123 1577836800000
  /\ (Z.abs (1577836800123 - 1577836800000) <= 2 ^ 53 ->
      timestampOffset (mkFields 123 5 10 0) = 1577836800123 - 1577836800000)
  /\ (0 <= timestampOffset (mkFields 123 5 10 0) < 2 ^ TIMESTAMP_BITS
      <-> 1577836800000 <= 1577836800123 < 1577836800000 + 2 ^ TIMESTAMP_BITS)
  /\ generate (mkGenerator 1577836800000 5 10 (-1) 0) [1577836800123]
     = (Return (Builtin.toString (encode (mkFields 123 5 10 0)),
                mkGenerator 1577836800000 5 10 1577836800123 0), []).
Proof.
  apply (generate_offset (mkGenerator 1577836800000 5 10 (-1) 0) [1577836800123]
           (mkFields 123 5 10 0) (mkGenerator 1577836800000 5 10 1577836800123 0) []).
  reflexivity.
Defined.

(** C10. One-shot generation: an identifier that [generateSnowflakeId]
    returns at a clock reading [now >= 0] decodes to sequence 0, and any
    other [generateSnowflakeId] call with the same configuration whose
    reading is the same millisecond returns the same string. *)
Theorem generateSnowflakeId_fresh (config : gmap string jsvalue)
    (now : Z) (rest : list Z) (id : jsstring) (rest' : list Z) :
  0 <= now ->
  generateSnowflakeId config (now :: rest) = (Return id, rest') ->
  (forall epoch', exists c,
      parseSnowflakeId id epoch' = Return c /\ Parsed.sequence c = 0)
  /\ (forall rest2, generateSnowflakeId config (now :: rest2) = (Return id, rest2)).
Proof.
  intros Hnow. unfold generateSnowflakeId.
  destruct (createSnowflake config) as [g|e|] eqn:Hcreate; try discriminate.
  apply GeneratorFacts.createSnowflake_wellFormed in Hcreate as ((Hdc & Hw & _) & Hlast & Hseq).
  assert (forall r, generate g (now :: r)
                    = (Return (Builtin.toString (encode (fieldsOf (advanced g now 0))),
                               advanced g now 0), r)) as Hgen.
  { intros r. apply GeneratorFacts.generate_new_tick. lia. }
  unfold bind at 1. rewrite Hgen. cbn. intros [= <- <-].
  split.
  - intros epoch'.
    change (fieldsOf (advanced g now 0))
      with (mkFields (Double.sub now (epoch g)) (datacenterId g) (workerId g) 0).
    eexists. split; [apply parse_encode; assumption || lia | reflexivity].
  - intros rest2. unfold bind. rewrite Hgen. reflexivity.
Qed.

Lemma generateSnowflakeId_fresh_witness :
  (forall epoch', exists c,
      parseSnowflakeId (js "516595712") epoch' = Return c /\ Parsed.sequence c = 0)
  /\ (forall rest2,
        generateSnowflakeId
          ({[ "datacenterId" := number 5 ]} ∪ {[ "workerId" := number 10 ]})
          (1577836800123 :: rest2) = (Return (js "516595712"), rest2)).
Proof.
  apply (generateSnowflakeId_fresh
           ({[ "datacenterId" := number 5 ]} ∪ {[ "workerId" := number 10 ]})
           1577836800123 [] (js "516595712") []);
    [lia | vm_compute; reflexivity].
Defined.

(** * The strings that [BigInt] accepts *)

Module GrammarFacts.
Import Builtin.

Ltac cases_N :=
  repeat match goal with
         | |- context [(?a <=? ?b)%N] => destruct (N.leb_spec a b)
         | |- context [(?a <? ?b)%N] => destruct (N.ltb_spec a b)
         | |- context [(?a =? ?b)%N] => destruct (N.eqb_spec a b)
         | _ => progress cbn [andb orb]
         end;
  try reflexivity; try lia.

Lemma digitOf_decimal c : digitOf 10 c = isDecimalDigit c.
Proof. unfold digitOf, digitValue, isDecimalDigit. cases_N. Qed.

Lemma digitOf_binary c : digitOf 2 c = isBinaryDigit c.
Proof. unfold digitOf, digitValue, isBinaryDigit. cases_N. Qed.

Lemma digitOf_octal c : digitOf 8 c = isOctalDigit c.
Proof. unfold digitOf, digitValue, isOctalDigit. cases_N. Qed.

Lemma digitOf_hex c : digitOf 16 c = isHexDigit c.
Proof. unfold digitOf, digitValue, isHexDigit. cases_N. Qed.

Lemma digitsValue_is_Some radix s : forall acc,
  is_Some (digitsValue radix acc s) <-> Forall (fun c => digitOf radix c = true) s.
Proof.
  induction s as [|c s IH]; intros acc; cbn.
  - split; [constructor | eauto].
  - rewrite Forall_cons. unfold digitOf at 1.
    destruct (digitValue radix c) eqn:E.
    + rewrite IH. tauto.
    + split; [intros [? ?]; discriminate | intros [? _]; discriminate].
Qed.

Lemma Digits_Forall (P : N -> bool) s :
  Digits P s <-> s <> [] /\ Forall (fun c => P c = true) s.
Proof.
  split.
  - induction 1 as [c Hc|c s Hc _ [_ IH]].
    + split; [discriminate | repeat constructor; exact Hc].
    + split; [discriminate | constructor; assumption].
  - intros [Hne Hall]. induction Hall as [|c s Hc Hall IH]; [congruence|].
    destruct s as [|c' s'].
    + constructor. exact Hc.
    + apply Digits_more; [exact Hc | apply IH; discriminate].
Qed.

Lemma digits1_is_Some radix (P : N -> bool) s :
  (forall c, digitOf radix c = P c) ->
  is_Some (digits1 radix s) <-> Digits P s.
Proof.
  intros HP. rewrite Digits_Forall. unfold digits1.
  assert (Forall (fun c => digitOf radix c = true) s
          <-> Forall (fun c => P c = true) s) as Hiff.
  { apply Forall_iff. intros c. rewrite HP. tauto. }
  destruct s as [|c s].
  - split; [intros [? ?]; discriminate | intros [? _]; congruence].
  - rewrite fmap_is_Some, digitsValue_is_Some, Hiff.
    split; [intros H; split; [discriminate | exact H] | tauto].
Qed.

Lemma Digits_head (P : N -> bool) s :
  Digits P s -> exists c rest, s = c :: rest /\ P c = true
                               /\ (rest = [] \/ Digits P rest).
Proof. destruct 1; eauto 6. Qed.

(** The parser accepts exactly the literals of the grammar. *)
Lemma StrIntegerLiteralValue_is_Some text :
  is_Some (StrIntegerLiteralValue text) <-> StrIntegerLiteral text.
Proof.
  split.
  - destruct text as [|c0 rest]; cbn [StrIntegerLiteralValue];
      [intros [? ?]; discriminate|].
    destruct (N.eqb_spec c0 43) as [->|H43].
    { intros H. apply Lit_plus. eapply digits1_is_Some; [apply digitOf_decimal | exact H]. }
    destruct (N.eqb_spec c0 45) as [->|H45].
    { rewrite fmap_is_Some. intros H. apply Lit_minus.
      eapply digits1_is_Some; [apply digitOf_decimal | exact H]. }
    assert (is_Some (digits1 10 (c0 :: rest)) -> StrIntegerLiteral (c0 :: rest)) as Hdec.
    { intros H. apply Lit_decimal.
      eapply digits1_is_Some; [apply digitOf_decimal | exact H]. }
    destruct rest as [|c1 ds]; [exact Hdec|].
    destruct (N.eqb_spec c0 48) as [->|H48]; cbn [andb]; [|exact Hdec].
    unfold isChar.
    destruct (N.eqb_spec c1 98) as [->|?]; cbn [orb].
    { intros H. apply Lit_binary; [tauto|].
      eapply digits1_is_Some; [apply digitOf_binary | exact H]. }
    destruct (N.eqb_spec c1 66) as [->|?]; cbn [orb].
    { intros H. apply Lit_binary; [tauto|].
      eapply digits1_is_Some; [apply digitOf_binary | exact H]. }
    destruct (N.eqb_spec c1 111) as [->|?]; cbn [orb].
    { intros H. apply Lit_octal; [tauto|].
      eapply digits1_is_Some; [apply digitOf_octal | exact H]. }
    destruct (N.eqb_spec c1 79) as [->|?]; cbn [orb].
    { intros H. apply Lit_octal; [tauto|].
      eapply digits1_is_Some; [apply digitOf_octal | exact H]. }
    destruct (N.eqb_spec c1 120) as [->|?]; cbn [orb].
    { intros H. apply Lit_hex; [tauto|].
      eapply digits1_is_Some; [apply digitOf_hex | exact H]. }
    destruct (N.eqb_spec c1 88) as [->|?]; cbn [orb].
    { intros H. apply Lit_hex; [tauto|].
      eapply digits1_is_Some; [apply digitOf_hex | exact H]. }
    exact Hdec.
  - intros H. destruct H as [s Hs|s Hs|s Hs|c s Hc Hs|c s Hc Hs|c s Hc Hs].
    + pose proof Hs as Hsome.
      apply (digits1_is_Some 10 _ _ digitOf_decimal) in Hsome.
      destruct (Digits_head _ _ Hs) as (c0 & rest & -> & Hc0 & Hrest).
      cbn [StrIntegerLiteralValue].
      destruct (DecimalFacts.isDecimalDigit_plain _ Hc0) as (_ & -> & -> & _).
      destruct Hrest as [->|Hrest]; [exact Hsome|].
      destruct (Digits_head _ _ Hrest) as (c1 & ds & -> & Hc1 & _).
      destruct (DecimalFacts.isDecimalDigit_plain _ Hc1) as (_ & _ & _ & Hl).
      rewrite !Hl by reflexivity. rewrite !andb_false_r. exact Hsome.
    + cbn. eapply digits1_is_Some; [apply digitOf_decimal | exact Hs].
    + cbn. rewrite fmap_is_Some.
      eapply digits1_is_Some; [apply digitOf_decimal | exact Hs].
    + apply (digits1_is_Some 2 _ _ digitOf_binary) in Hs.
      destruct Hc as [->| ->]; exact Hs.
    + apply (digits1_is_Some 8 _ _ digitOf_octal) in Hs.
      destruct Hc as [->| ->]; exact Hs.
    + apply (digits1_is_Some 16 _ _ digitOf_hex) in Hs.
      destruct Hc as [->| ->]; exact Hs.
Qed.
Lemma trimStart_ws ws x : StrWhiteSpace ws -> trimStart (ws ++ x) = trimStart x.
Proof. induction 1 as [|c ws Hc _ IH]; cbn; [reflexivity | now rewrite Hc]. Qed.

Lemma trimStart_decompose s : exists ws, s = ws ++ trimStart s /\ StrWhiteSpace ws.
Proof.
  induction s as [|c s (ws & IH & Hws)]; [exists []; split; [reflexivity | constructor]|].
  cbn. destruct (StrWhiteSpaceChar c) eqn:Hc.
  - exists (c :: ws). split; [cbn; congruence | constructor; assumption].
  - exists []. split; [reflexivity | constructor].
Qed.

Lemma trimStart_plain_all s :
  Forall (fun c => StrWhiteSpaceChar c = false) s -> trimStart s = s.
Proof. destruct 1 as [|c s Hc _]; [reflexivity | now apply DecimalFacts.trimStart_plain]. Qed.

Lemma trimEnd_decompose s : exists ws, s = trimEnd s ++ ws /\ StrWhiteSpace ws.
Proof.
  unfold trimEnd. destruct (trimStart_decompose (rev s)) as (ws & E & Hws).
  exists (rev ws). split; [|apply Forall_rev; exact Hws].
  rewrite <- rev_app_distr, <- E, rev_involutive. reflexivity.
Qed.

Lemma trim_decompose s :
  exists before after,
    s = before ++ trim s ++ after /\ StrWhiteSpace before /\ StrWhiteSpace after.
Proof.
  destruct (trimStart_decompose s) as (before & E1 & H1).
  destruct (trimEnd_decompose (trimStart s)) as (after & E2 & H2).
  exists before, after. unfold trim. rewrite <- E2. auto.
Qed.

Lemma trim_ws s : StrWhiteSpace s -> trim s = [].
Proof.
  intros H. unfold trim.
  rewrite <- (app_nil_r s), trimStart_ws by exact H. reflexivity.
Qed.

Lemma trim_around before text after :
  StrWhiteSpace before -> StrWhiteSpace after ->
  Forall (fun c => StrWhiteSpaceChar c = false) text ->
  text <> [] ->
  trim (before ++ text ++ after) = text.
Proof.
  intros Hb Ha Ht Hne. unfold trim, trimEnd.
  rewrite trimStart_ws by exact Hb.
  destruct text as [|c text']; [congruence|].
  rewrite <- app_comm_cons, DecimalFacts.trimStart_plain by (now inversion Ht).
  rewrite app_comm_cons, rev_app_distr.
  rewrite trimStart_ws by (apply Forall_rev; exact Ha).
  rewrite trimStart_plain_all by (apply Forall_rev; exact Ht).
  apply rev_involutive.
Qed.

Lemma Digits_plain (P : N -> bool) s :
  (forall c, P c = true -> StrWhiteSpaceChar c = false) ->
  Digits P s -> Forall (fun c => StrWhiteSpaceChar c = false) s.
Proof.
  intros HP H. apply Digits_Forall in H as [_ H].
  eapply Forall_impl; [exact H | exact HP].
Qed.

Lemma plain_range c : (48 <= c <= 122)%N -> StrWhiteSpaceChar c = false.
Proof.
  intros H. unfold StrWhiteSpaceChar.
  repeat match goal with
         | |- context [(?a <=? ?b)%N] => destruct (N.leb_spec a b); try lia
         | |- context [(?a =? ?b)%N] => destruct (N.eqb_spec a b); try lia
         end; reflexivity.
Qed.

Lemma digit_plain c :
  isDecimalDigit c = true \/ isBinaryDigit c = true
  \/ isOctalDigit c = true \/ isHexDigit c = true ->
  StrWhiteSpaceChar c = false.
Proof.
  unfold isDecimalDigit, isBinaryDigit, isOctalDigit, isHexDigit.
  intros H. apply plain_range.
  repeat rewrite ?andb_true_iff, ?orb_true_iff, ?N.leb_le, ?N.eqb_eq in H. lia.
Qed.

Lemma StrIntegerLiteral_plain text :
  StrIntegerLiteral text ->
  text <> [] /\ Forall (fun c => StrWhiteSpaceChar c = false) text.
Proof.
  assert (forall P s, (forall c, P c = true -> StrWhiteSpaceChar c = false) ->
                      Digits P s -> s <> []) as Hne.
  { intros P s _ H. apply Digits_Forall in H. tauto. }
  destruct 1 as [s Hs|s Hs|s Hs|c s Hc Hs|c s Hc Hs|c s Hc Hs].
  - split; [eapply Hne | eapply Digits_plain]; try exact Hs;
      intros; apply digit_plain; tauto.
  - split; [discriminate|]. constructor; [reflexivity|].
    eapply Digits_plain; [|exact Hs]. intros; apply digit_plain; tauto.
  - split; [discriminate|]. constructor; [reflexivity|].
    eapply Digits_plain; [|exact Hs]. intros; apply digit_plain; tauto.
  - split; [discriminate|]. constructor; [reflexivity|].
    constructor; [destruct Hc as [->| ->]; reflexivity|].
    eapply Digits_plain; [|exact Hs]. intros; apply digit_plain; tauto.
  - split; [discriminate|]. constructor; [reflexivity|].
    constructor; [destruct Hc as [->| ->]; reflexivity|].
    eapply Digits_plain; [|exact Hs]. intros; apply digit_plain; tauto.
  - split; [discriminate|]. constructor; [reflexivity|].
    constructor; [destruct Hc as [->| ->]; reflexivity|].
    eapply Digits_plain; [|exact Hs]. intros; apply digit_plain; tauto.
Qed.

(** [StringToBigInt] yields a value exactly on the strings of the
    grammar. *)
Lemma StringToBigInt_is_Some s :
  is_Some (StringToBigInt s) <-> StringIntegerLiteral s.
Proof.
  unfold StringToBigInt. split.
  - intros H. destruct (trim_decompose s) as (before & after & E & Hb & Ha).
    destruct (trim s) as [|c text] eqn:Ht.
    + rewrite E. cbn. apply SIL_empty. apply Forall_app. split; assumption.
    + rewrite E. apply SIL_literal; try assumption.
      apply StrIntegerLiteralValue_is_Some. exact H.
  - intros [s' Hws|before lit after Hb Hlit Ha].
    + rewrite trim_ws by exact Hws. eauto.
    + destruct (StrIntegerLiteral_plain _ Hlit) as [Hne Hplain].
      rewrite trim_around by assumption.
      apply StrIntegerLiteralValue_is_Some in Hlit.
      destruct lit; [congruence | exact Hlit].
Qed.

Lemma BigInt_cases s :
  (StringIntegerLiteral s /\ exists z, BigInt s = Return z)
  \/ (~ StringIntegerLiteral s /\ BigInt s = Throw SyntaxError).
Proof.
  unfold BigInt. destruct (StringToBigInt s) as [z|] eqn:E.
  - left. split; [apply StringToBigInt_is_Some; rewrite E; eauto | eauto].
  - right. split; [|reflexivity]. intros H.
    apply StringToBigInt_is_Some in H. rewrite E in H. destruct H; discriminate.
Qed.

End GrammarFacts.

(** C8 as stated fails: the empty string has no digit, yet it decodes, as
    the identifier 0. *)
Lemma parse_non_numeric_counterexample :
  ~ (forall (s : jsstring) (epoch' : Z),
       numeric s = false ->
       (exists e, parseSnowflakeId s epoch' = Throw e)
       /\ (exists e, getSnowflakeTimestamp s epoch' = Throw e)).
Proof.
  intros H. destruct (H [] DEFAULT_EPOCH eq_refl) as [[e He] _].
  vm_compute in He. discriminate.
Qed.

(** C8, amended.  [parseSnowflakeId] and [getSnowflakeTimestamp] throw a
    SyntaxError exactly on the strings that are not a StringIntegerLiteral,
    that is, not white space only (the empty string included) and not
    optional white space around decimal digits with an optional sign or
    around a [0b], [0o] or [0x] literal; on every string of that grammar
    they return a result. *)
Theorem parse_rejects_non_literals (s : jsstring) (epoch' : Z) :
  (parseSnowflakeId s epoch' = Throw SyntaxError <-> ~ StringIntegerLiteral s)
  /\ (getSnowflakeTimestamp s epoch' = Throw SyntaxError <-> ~ StringIntegerLiteral s)
  /\ ((exists c, parseSnowflakeId s epoch' = Return c
                 /\ getSnowflakeTimestamp s epoch' = Return (Parsed.timestamp c))
      <-> StringIntegerLiteral s).
Proof.
  unfold parseSnowflakeId, getSnowflakeTimestamp.
  destruct (GrammarFacts.BigInt_cases s) as [[Hlit [z ->]]|[Hnot ->]].
  - repeat split; try discriminate; try tauto.
    + intros _. eexists. split; reflexivity.
  - repeat split; try tauto.
    + intros (c & Hc & _). discriminate.
Qed.

Lemma parse_rejects_non_literals_witness :
  parseSnowflakeId (js "invalid-id") DEFAULT_EPOCH = Throw SyntaxError.
Proof.
  apply (proj2 (proj1 (parse_rejects_non_literals (js "invalid-id") DEFAULT_EPOCH))).
  intros H. apply GrammarFacts.StringToBigInt_is_Some in H.
  vm_compute in H. destruct H as [z H]. discriminate.
Defined.

(** What the decoder does on some strings that are not decimal numerals. *)
Example parse_empty_string :
  parseSnowflakeId (js "") DEFAULT_EPOCH
  = Return (Parsed.mkComponents DEFAULT_EPOCH 0 0 0 (Some DEFAULT_EPOCH)).
Proof. reflexivity. Qed.

Example parse_white_space :
  parseSnowflakeId [32%N; 9%N; 10%N] DEFAULT_EPOCH
  = Return (Parsed.mkComponents DEFAULT_EPOCH 0 0 0 (Some DEFAULT_EPOCH)).
Proof. reflexivity. Qed.

Example parse_hex_literal :
  parseSnowflakeId (js "0x7B405400") 0
  = Return (Parsed.mkComponents 493 0 5 1024 (Some 493)).
Proof. reflexivity. Qed.

Example parse_invalid_id : parseSnowflakeId (js "invalid-id") DEFAULT_EPOCH = Throw SyntaxError.
Proof. reflexivity. Qed.

Example parse_fraction : parseSnowflakeId (js "12.5") DEFAULT_EPOCH = Throw SyntaxError.
Proof. reflexivity. Qed.

(** * The adapters *)

Module AdapterFacts.

(** Spread followed by destructuring with a default: a property of the
    later object hides the earlier one even when it holds [undefined]. *)
Lemma withDefault_spread (a b : gmap string jsvalue) key dflt :
  withDefault (spread a b) key dflt =
  match b !! key with
  | Some (number n) => n
  | Some undefined => dflt
  | None => withDefault a key dflt
  end.
Proof.
  unfold withDefault, spread.
  destruct (b !! key) as [v|] eqn:E.
  - rewrite (lookup_union_Some_l b a key v E). reflexivity.
  - rewrite lookup_union_r by exact E. reflexivity.
Qed.

Lemma loadConfigFromStorage_datacenterId items :
  Browser.loadConfigFromStorage (Some items) !! "datacenterId"
  = Some (Browser.parseLocalStorageInt (Some items) Browser.DATACENTER_ID 0 31).
Proof.
  unfold Browser.loadConfigFromStorage.
  rewrite lookup_insert_ne by discriminate. apply lookup_insert_eq.
Qed.

Lemma loadConfigFromStorage_workerId items :
  Browser.loadConfigFromStorage (Some items) !! "workerId"
  = Some (Browser.parseLocalStorageInt (Some items) Browser.WORKER_ID 0 31).
Proof. unfold Browser.loadConfigFromStorage. apply lookup_insert_eq. Qed.

(** With [localStorage] available and no override, the generator's ids
    come from storage or are 0: the fingerprint is never used. *)
Lemma createSnowflakeFromStorage_available overrides items fp g :
  Browser.createSnowflakeFromStorage overrides (Some items) fp = Return g ->
  (overrides !! "datacenterId" = None ->
   datacenterId g =
   match Browser.parseLocalStorageInt (Some items) Browser.DATACENTER_ID 0 31 with
   | number n => n
   | undefined => 0
   end)
  /\ (overrides !! "workerId" = None ->
      workerId g =
      match Browser.parseLocalStorageInt (Some items) Browser.WORKER_ID 0 31 with
      | number n => n
      | undefined => 0
      end).
Proof.
  unfold Browser.createSnowflakeFromStorage. intros Hcreate.
  apply GeneratorFacts.createSnowflake_fields in Hcreate as (_ & -> & ->).
  split; intros Hnone; rewrite withDefault_spread, Hnone, withDefault_spread.
  - rewrite loadConfigFromStorage_datacenterId. reflexivity.
  - rewrite loadConfigFromStorage_workerId. reflexivity.
Qed.

(** An override that holds a number wins over storage and fingerprint. *)
Lemma createSnowflakeFromStorage_override overrides localStorage fp g n :
  Browser.createSnowflakeFromStorage overrides localStorage fp = Return g ->
  (overrides !! "datacenterId" = Some (number n) -> datacenterId g = n)
  /\ (overrides !! "workerId" = Some (number n) -> workerId g = n)
  /\ (overrides !! "epoch" = Some (number n) -> epoch g = n).
Proof.
  unfold Browser.createSnowflakeFromStorage. intros Hcreate.
  apply GeneratorFacts.createSnowflake_fields in Hcreate as (-> & -> & ->).
  repeat split; intros Hsome; rewrite withDefault_spread, Hsome; reflexivity.
Qed.

(** Without [localStorage] the fingerprint fills in what the overrides
    leave out. *)
Lemma createSnowflakeFromStorage_unavailable overrides fp g :
  Browser.createSnowflakeFromStorage overrides None fp = Return g ->
  (overrides !! "datacenterId" = None ->
   datacenterId g = Browser.generateBrowserDatacenterId fp)
  /\ (overrides !! "workerId" = None ->
      workerId g = Browser.generateBrowserWorkerId fp).
Proof.
  unfold Browser.createSnowflakeFromStorage. intros Hcreate.
  apply GeneratorFacts.createSnowflake_fields in Hcreate as (_ & -> & ->).
  split; intros Hnone; rewrite withDefault_spread, Hnone, withDefault_spread;
    cbn [Browser.loadConfigFromStorage]; rewrite lookup_empty;
    unfold withDefault, Browser.generateBrowserConfig.
  - rewrite lookup_insert_ne by discriminate. rewrite lookup_insert_eq. reflexivity.
  - rewrite lookup_insert_eq. reflexivity.
Qed.

(** The environment adapter: an override wins, then the environment's
    value, then the library default. *)
Lemma createSnowflakeFromEnv_precedence overrides env envConfig g key dflt :
  Node.loadConfigFromEnv env = Return envConfig ->
  withDefault (spread envConfig overrides) key dflt =
  match overrides !! key with
  | Some (number n) => n
  | Some undefined => dflt
  | None => withDefault envConfig key dflt
  end
  /\ (Node.createSnowflakeFromEnv overrides env = Return g ->
      datacenterId g = withDefault (spread envConfig overrides) "datacenterId" 0
      /\ workerId g = withDefault (spread envConfig overrides) "workerId" 0
      /\ epoch g = withDefault (spread envConfig overrides) "epoch" DEFAULT_EPOCH).
Proof.
  intros Hload. split; [apply withDefault_spread|].
  unfold Node.createSnowflakeFromEnv. rewrite Hload. intros Hcreate.
  apply GeneratorFacts.createSnowflake_fields in Hcreate as (-> & -> & ->).
  repeat split.
Qed.

End AdapterFacts.

(** C9, where the code departs from the stated precedence.  With
    [localStorage] available but holding no snowflake keys, and no
    overrides, a fingerprint of datacenter 7 and worker 9 is ignored: the
    generator gets the library defaults 0 and 0.  Only when [localStorage]
    is not available at all does the fingerprint come through. *)
Theorem createSnowflakeFromStorage_empty_storage :
  Browser.createSnowflakeFromStorage ∅ (Some ∅) (Browser.mkFingerprint 7 9)
  = Return (mkGenerator DEFAULT_EPOCH 0 0 (-1) 0)
  /\ Browser.loadConfigFromStorage (Some ∅)
     = {[ "datacenterId" := undefined; "workerId" := undefined ]}
  /\ Browser.createSnowflakeFromStorage ∅ None (Browser.mkFingerprint 7 9)
     = Return (mkGenerator DEFAULT_EPOCH 7 9 (-1) 0).
Proof. repeat split; vm_compute; reflexivity. Qed.

(** * Further properties of the decoder *)

Module CodecFacts.

Lemma decode_range (z : Z) :
  0 <= Z.land (Z.shiftr z DATACENTER_SHIFT) MAX_DATACENTER_ID <= 31
  /\ 0 <= Z.land (Z.shiftr z WORKER_SHIFT) MAX_WORKER_ID <= 31
  /\ 0 <= Z.land z MAX_SEQUENCE <= 4095.
Proof.
  change MAX_DATACENTER_ID with (Z.ones 5). change MAX_WORKER_ID with (Z.ones 5).
  change MAX_SEQUENCE with (Z.ones 12).
  rewrite !Z.land_ones by lia.
  change (2 ^ 5) with 32. change (2 ^ 12) with 4096.
  pose proof (Z.mod_pos_bound (Z.shiftr z DATACENTER_SHIFT) 32 ltac:(lia)).
  pose proof (Z.mod_pos_bound (Z.shiftr z WORKER_SHIFT) 32 ltac:(lia)).
  pose proof (Z.mod_pos_bound z 4096 ltac:(lia)). lia.
Qed.

(** Packing the fields that decoding extracts gives the integer back, for
    every integer. *)
Lemma encode_decode (z : Z) :
  encode (mkFields (Z.shiftr z TIMESTAMP_SHIFT)
                   (Z.land (Z.shiftr z DATACENTER_SHIFT) MAX_DATACENTER_ID)
                   (Z.land (Z.shiftr z WORKER_SHIFT) MAX_WORKER_ID)
                   (Z.land z MAX_SEQUENCE)) = z.
Proof.
  destruct (decode_range z) as (Hdc & Hw & Hseq).
  rewrite Layout.encode_sum by assumption.
  change TIMESTAMP_SHIFT with 22. change DATACENTER_SHIFT with 17.
  change WORKER_SHIFT with 12.
  change MAX_DATACENTER_ID with (Z.ones 5). change MAX_WORKER_ID with (Z.ones 5).
  change MAX_SEQUENCE with (Z.ones 12).
  rewrite !Z.land_ones, !Z.shiftr_div_pow2 by lia.
  change (2 ^ 22) with 4194304. change (2 ^ 17) with 131072.
  change (2 ^ 12) with 4096. change (2 ^ 5) with 32.
  Z.div_mod_to_equations. lia.
Qed.

Lemma parseSnowflakeId_Return id epoch' c :
  parseSnowflakeId id epoch' = Return c ->
  exists z, Builtin.BigInt id = Return z
            /\ c = {| Parsed.timestamp :=
                        Double.add (Double.ofBigInt (Z.shiftr z TIMESTAMP_SHIFT)) epoch';
                      Parsed.datacenterId :=
                        Z.land (Z.shiftr z DATACENTER_SHIFT) MAX_DATACENTER_ID;
                      Parsed.workerId := Z.land (Z.shiftr z WORKER_SHIFT) MAX_WORKER_ID;
                      Parsed.sequence := Z.land z MAX_SEQUENCE;
                      Parsed.date :=
                        Builtin.TimeClip
                          (Double.add (Double.ofBigInt (Z.shiftr z TIMESTAMP_SHIFT))
                                      epoch') |}.
Proof.
  unfold parseSnowflakeId. destruct (Builtin.BigInt id) as [z|e|]; try discriminate.
  intros [= <-]. exists z. split; reflexivity.
Qed.

End CodecFacts.

(** X1. Whatever string [parseSnowflakeId] accepts, also one that denotes a
    negative or a very large integer, the decoded datacenterId and workerId
    lie in [0,31] and the decoded sequence in [0,4095]. *)
Theorem parse_fields_in_range (id : jsstring) (epoch' : Z) (c : Parsed.Components) :
  parseSnowflakeId id epoch' = Return c ->
  0 <= Parsed.datacenterId c <= 31
  /\ 0 <= Parsed.workerId c <= 31
  /\ 0 <= Parsed.sequence c <= 4095.
Proof.
  intros H. apply CodecFacts.parseSnowflakeId_Return in H as (z & _ & ->).
  apply CodecFacts.decode_range.
Qed.

Lemma parse_fields_in_range_witness :
  0 <= 31 <= 31 /\ 0 <= 31 <= 31 /\ 0 <= 4095 <= 4095.
Proof.
  apply (parse_fields_in_range (js "-1") 0
           (Parsed.mkComponents (-1) 31 31 4095 (Some (-1)))).
  reflexivity.
Defined.

(** X2. Decoding loses nothing where the timestamp is exact: for every
    string that [parseSnowflakeId] accepts, denoting an integer [z] with
    |z >> 22| + |epoch| <= 2^53 (so that neither the conversion of z >> 22
    to a double nor the addition of the epoch rounds), packing the decoded
    fields (with timestamp - epoch as the offset) gives back [z], and the
    decimal string of that integer decodes to the same components. *)
Theorem parse_then_encode (id : jsstring) (epoch' z : Z) (c : Parsed.Components) :
  Builtin.BigInt id = Return z ->
  Z.abs (Z.shiftr z TIMESTAMP_SHIFT) + Z.abs epoch' <= 2 ^ 53 ->
  parseSnowflakeId id epoch' = Return c ->
  let repacked :=
    encode (mkFields (Parsed.timestamp c - epoch') (Parsed.datacenterId c)
                     (Parsed.workerId c) (Parsed.sequence c)) in
  Builtin.BigInt id = Return repacked
  /\ parseSnowflakeId (Builtin.toString repacked) epoch' = Return c.
Proof.
  intros Hz Hexact H. pose proof H as H'.
  apply CodecFacts.parseSnowflakeId_Return in H as (z' & Hz' & Hc).
  rewrite Hz in Hz'. injection Hz' as <-.
  assert (Parsed.timestamp c - epoch' = Z.shiftr z TIMESTAMP_SHIFT) as ->.
  { rewrite Hc. cbn [Parsed.timestamp]. unfold Double.add, Double.ofBigInt.
    rewrite (DoubleFacts.round_exact (Z.shiftr z TIMESTAMP_SHIFT)) by lia.
    rewrite DoubleFacts.round_exact by lia. lia. }
  assert (encode (mkFields (Z.shiftr z TIMESTAMP_SHIFT) (Parsed.datacenterId c)
                           (Parsed.workerId c) (Parsed.sequence c)) = z) as ->.
  { rewrite Hc. cbn [Parsed.datacenterId Parsed.workerId Parsed.sequence].
    apply CodecFacts.encode_decode. }
  cbv zeta. split; [exact Hz|].
  rewrite <- H'. unfold parseSnowflakeId.
  rewrite DecimalFacts.BigInt_toString, Hz. reflexivity.
Qed.

Lemma parse_then_encode_witness :
  Builtin.BigInt (js " 007 ") = Return (encode (mkFields (5 - 5) 0 0 7))
  /\ parseSnowflakeId (Builtin.toString (encode (mkFields (5 - 5) 0 0 7))) 5
     = Return (Parsed.mkComponents 5 0 0 7 (Some 5)).
Proof.
  apply (parse_then_encode (js " 007 ") 5 7 (Parsed.mkComponents 5 0 0 7 (Some 5)));
    [reflexivity | vm_compute; discriminate | reflexivity].
Defined.

(** X3. The three decoders agree: on every string and epoch,
    [getSnowflakeTimestamp] returns the timestamp field and [snowflakeToDate]
    the date field of what [parseSnowflakeId] returns, and each throws
    exactly when [parseSnowflakeId] does, with the same exception. *)
Theorem decoders_agree (id : jsstring) (epoch' : Z) :
  match parseSnowflakeId id epoch' with
  | Return c =>
      getSnowflakeTimestamp id epoch' = Return (Parsed.timestamp c)
      /\ snowflakeToDate id epoch' = Return (Parsed.date c)
  | Throw e =>
      getSnowflakeTimestamp id epoch' = Throw e /\ snowflakeToDate id epoch' = Throw e
  | Pending => False
  end.
Proof.
  unfold snowflakeToDate, getSnowflakeTimestamp, parseSnowflakeId.
  destruct (GrammarFacts.BigInt_cases id) as [[_ [z ->]]|[_ ->]]; split; reflexivity.
Qed.

(** * Further properties of the generator *)

(** X4. While every clock reading is at most 2^53 in magnitude (as every
    reading of [Date.now] is) and differs from the epoch by at most 2^53,
    every identifier that a generator made by [createSnowflake] returns
    decodes, with the generator's epoch, to the configured datacenterId and
    workerId, to a timestamp that is one of the clock readings, and to a
    sequence in [0,4095]. *)
Theorem generated_id_decodes (config : gmap string jsvalue) (g : Generator)
    (n : nat) (clock : list Z) (i : nat) (id : jsstring) :
  createSnowflake config = Return g ->
  Forall (fun t => Z.abs t <= 2 ^ 53) clock ->
  Forall (exactOffset (withDefault config "epoch" DEFAULT_EPOCH)) clock ->
  calls n g clock !! i = Some (Return id) ->
  exists c,
    parseSnowflakeId id (withDefault config "epoch" DEFAULT_EPOCH) = Return c
    /\ Parsed.datacenterId c = withDefault config "datacenterId" 0
    /\ Parsed.workerId c = withDefault config "workerId" 0
    /\ In (Parsed.timestamp c) clock
    /\ 0 <= Parsed.sequence c <= 4095.
Proof.
  intros Hcreate Hreadings Hexact Hcall.
  destruct (GeneratorFacts.createSnowflake_fields _ _ Hcreate) as (He & Hdc & Hw).
  apply GeneratorFacts.createSnowflake_wellFormed in Hcreate as [Hwf _].
  destruct (RunFacts.calls_reach _ _ _ _ _ Hwf Hcall)
    as (g' & Hwf' & He' & Hdc' & Hw' & -> & _ & Hin).
  eexists. split; [apply RunFacts.parse_lastIdentifier; exact Hwf'|].
  cbn. rewrite <- He, <- He'. repeat split; try congruence; try apply Hwf'.
  rewrite Forall_forall in Hreadings, Hexact.
  pose proof Hin as Hin'. apply list_elem_of_In in Hin'.
  pose proof (Hreadings _ Hin') as Hr. pose proof (Hexact _ Hin') as Hx.
  rewrite <- He, <- He' in Hx. unfold exactOffset in Hx.
  unfold Double.add, Double.ofBigInt, Double.sub.
  rewrite (DoubleFacts.round_exact (lastTimestamp g' - epoch g')) by exact Hx.
  rewrite (DoubleFacts.round_exact (lastTimestamp g' - epoch g')) by exact Hx.
  replace (lastTimestamp g' - epoch g' + epoch g') with (lastTimestamp g') by lia.
  rewrite DoubleFacts.round_exact by exact Hr.
  exact Hin.
Qed.

Lemma generated_id_decodes_witness :
  exists c,
    parseSnowflakeId (js "516595713")
      (withDefault ({[ "datacenterId" := number 5 ]} ∪ {[ "workerId" := number 10 ]})
                   "epoch" DEFAULT_EPOCH) = Return c
    /\ Parsed.datacenterId c
       = withDefault ({[ "datacenterId" := number 5 ]} ∪ {[ "workerId" := number 10 ]})
                     "datacenterId" 0
    /\ Parsed.workerId c
       = withDefault ({[ "datacenterId" := number 5 ]} ∪ {[ "workerId" := number 10 ]})
                     "workerId" 0
    /\ In (Parsed.timestamp c) [1577836800123; 1577836800123]
    /\ 0 <= Parsed.sequence c <= 4095.
Proof.
  apply (generated_id_decodes
           ({[ "datacenterId" := number 5 ]} ∪ {[ "workerId" := number 10 ]})
           (mkGenerator DEFAULT_EPOCH 5 10 (-1) 0) 2
           [1577836800123; 1577836800123] 1 (js "516595713"));
    [vm_compute; reflexivity | | | vm_compute; reflexivity].
  - repeat (apply Forall_cons; split; [cbn; lia|]). apply Forall_nil_2.
  - repeat (apply Forall_cons; split; [vm_compute; discriminate|]). apply Forall_nil_2.
Defined.

(** X5. Identifiers sort by time: of two calls of one generator that both
    return, the later identifier decodes to a timestamp that is not before
    the earlier one's, whatever epoch is used to decode both. *)
Theorem decoded_timestamps_monotonic (config : gmap string jsvalue) (g : Generator)
    (n : nat) (clock : list Z) (i j : nat) (a b : jsstring)
    (epoch' : Z) (ca cb : Parsed.Components) :
  createSnowflake config = Return g ->
  (i < j)%nat ->
  calls n g clock !! i = Some (Return a) ->
  calls n g clock !! j = Some (Return b) ->
  parseSnowflakeId a epoch' = Return ca ->
  parseSnowflakeId b epoch' = Return cb ->
  Parsed.timestamp ca <= Parsed.timestamp cb.
Proof.
  intros Hcreate Hij Hi Hj Ha Hb.
  apply GeneratorFacts.createSnowflake_wellFormed in Hcreate as [Hwf _].
  destruct (RunFacts.calls_pair _ _ _ _ _ _ _ Hwf Hij Hi Hj)
    as (ga & gb & (Hwfa & Hea & _ & _ & -> & _) & (Hwfb & Heb & _ & _ & -> & _) & Hp).
  rewrite RunFacts.parse_lastIdentifier in Ha, Hb by assumption.
  injection Ha as <-. injection Hb as <-.
  cbn [Parsed.timestamp]. unfold Double.add, Double.ofBigInt.
  apply DoubleFacts.round_mono. apply Z.add_le_mono_r. apply DoubleFacts.round_mono.
  apply RunFacts.offset_mono; [congruence | exact Hp].
Qed.

Lemma decoded_timestamps_monotonic_witness :
  Parsed.timestamp (Parsed.mkComponents 1 0 0 4095 (Some 1))
  <= Parsed.timestamp (Parsed.mkComponents 2 0 0 0 (Some 2)).
Proof.
  apply (decoded_timestamps_monotonic ∅ (mkGenerator DEFAULT_EPOCH 0 0 (-1) 0) 2
           [1577836800001; 1577836800002] 0 1 (js "4194304") (js "8388608")
           0 (Parsed.mkComponents 1 0 0 0 (Some 1))
           (Parsed.mkComponents 2 0 0 0 (Some 2)));
    first [lia | vm_compute; reflexivity].
Defined.

(** X6. Two generators that differ in datacenterId or in workerId never
    return the same identifier, whatever their epochs and whatever their
    clocks read. *)
Theorem generators_disjoint (config1 config2 : gmap string jsvalue)
    (g1 g2 : Generator) (n1 n2 : nat) (clock1 clock2 : list Z)
    (i j : nat) (a b : jsstring) :
  createSnowflake config1 = Return g1 ->
  createSnowflake config2 = Return g2 ->
  datacenterId g1 <> datacenterId g2 \/ workerId g1 <> workerId g2 ->
  calls n1 g1 clock1 !! i = Some (Return a) ->
  calls n2 g2 clock2 !! j = Some (Return b) ->
  a <> b.
Proof.
  intros Hc1 Hc2 Hdiff Ha Hb Heq.
  apply GeneratorFacts.createSnowflake_wellFormed in Hc1 as [Hwf1 _].
  apply GeneratorFacts.createSnowflake_wellFormed in Hc2 as [Hwf2 _].
  destruct (RunFacts.calls_reach _ _ _ _ _ Hwf1 Ha)
    as (g1' & Hwf1' & _ & Hdc1 & Hw1 & -> & _).
  destruct (RunFacts.calls_reach _ _ _ _ _ Hwf2 Hb)
    as (g2' & Hwf2' & _ & Hdc2 & Hw2 & -> & _).
  apply DecimalFacts.toString_inj in Heq.
  rewrite !GeneratorFacts.lastIdentifier_sum in Heq by assumption.
  destruct Hwf1' as (? & ? & ?). destruct Hwf2' as (? & ? & ?).
  rewrite <- Hdc1, <- Hdc2, <- Hw1, <- Hw2 in Hdiff. lia.
Qed.

Lemma generators_disjoint_witness : js "4198400" <> js "4202496".
Proof.
  apply (generators_disjoint {[ "workerId" := number 1 ]} {[ "workerId" := number 2 ]}
           (mkGenerator DEFAULT_EPOCH 0 1 (-1) 0) (mkGenerator DEFAULT_EPOCH 0 2 (-1) 0)
           1 1 [1577836800001] [1577836800001] 0 0);
    first [ (vm_compute; reflexivity) | (right; cbn; lia) ].
Defined.

(** X7. While every clock reading lies in [epoch, epoch + 2^41), every
    identifier the generator returns denotes an integer in [0, 2^63): it
    fits a signed 64-bit integer and leaves the top bit clear. *)
Theorem generated_id_fits_63_bits (config : gmap string jsvalue) (g : Generator)
    (n : nat) (clock : list Z) (i : nat) (id : jsstring) :
  createSnowflake config = Return g ->
  Forall (fun t => epoch g <= t < epoch g + 2 ^ TIMESTAMP_BITS) clock ->
  calls n g clock !! i = Some (Return id) ->
  exists v, Builtin.BigInt id = Return v /\ 0 <= v < 2 ^ 63.
Proof.
  intros Hcreate Hclock Hcall.
  apply GeneratorFacts.createSnowflake_wellFormed in Hcreate as [Hwf _].
  destruct (RunFacts.calls_reach _ _ _ _ _ Hwf Hcall)
    as (g' & Hwf' & He & _ & _ & -> & _ & Hin).
  exists (lastIdentifier g'). split; [apply DecimalFacts.BigInt_toString|].
  apply GeneratorFacts.lastIdentifier_63_bits; [exact Hwf'|].
  rewrite Forall_forall in Hclock. apply list_elem_of_In in Hin.
  specialize (Hclock _ Hin). rewrite He. lia.
Qed.

Lemma generated_id_fits_63_bits_witness :
  exists v, Builtin.BigInt (js "4194304") = Return v /\ 0 <= v < 2 ^ 63.
Proof.
  apply (generated_id_fits_63_bits ∅ (mkGenerator DEFAULT_EPOCH 0 0 (-1) 0) 1
           [1577836800001] 0 (js "4194304"));
    [vm_compute; reflexivity | | vm_compute; reflexivity].
  constructor; [|constructor]. change (2 ^ TIMESTAMP_BITS) with 2199023255552.
  unfold DEFAULT_EPOCH. cbn. lia.
Defined.

(** X8. A successful call keeps the generator's invariant: the epoch and
    the two ids are unchanged, the sequence stays in [0,4095],
    [lastTimestamp] does not decrease and is one of the readings the call
    was given, and the readings left are a suffix of those given. *)
Theorem generate_keeps_invariant (g : Generator) (clock : list Z)
    (id : jsstring) (g' : Generator) (clock' : list Z) :
  wellFormed g ->
  generate g clock = (Return (id, g'), clock') ->
  wellFormed g'
  /\ (epoch g', datacenterId g', workerId g') = (epoch g, datacenterId g, workerId g)
  /\ lastTimestamp g <= lastTimestamp g'
  /\ In (lastTimestamp g') clock
  /\ exists used, used <> [] /\ clock = used ++ clock'.
Proof.
  intros Hwf Hgen.
  destruct (RunFacts.generate_progress _ _ _ _ _ Hwf Hgen)
    as (Hwf' & -> & -> & -> & _ & Hle & Hin).
  repeat split; try assumption; try apply Hwf'.
  destruct (RunFacts.generate_suffix _ _ _ _ Hgen) as [used ->].
  exists used. split; [|reflexivity].
  intros ->. cbn in Hgen.
  destruct clock' as [|now rest]; [discriminate|].
  pose proof (f_equal (fun r => length (snd r)) Hgen) as Hlen. cbn in Hlen.
  destruct (RunFacts.generate_suffix _ _ _ _ Hgen) as [used E].
  rewrite GeneratorFacts.generate_nextFields, GeneratorFacts.nextFields_unfold in Hgen.
  assert (forall r c, (r, c) = (Return (id, g'), now :: rest) ->
                      length c <= length rest -> False)%nat as Hshort.
  { intros r c [= _ ->]. cbn. lia. }
  destruct (now <? lastTimestamp g); [discriminate|].
  destruct (now =? lastTimestamp g); [|eapply Hshort; [exact Hgen | lia]].
  destruct (Z.land (sequence g + 1) MAX_SEQUENCE =? 0);
    [|eapply Hshort; [exact Hgen | lia]].
  destruct (waitForNextMillisecond (lastTimestamp g) now rest) as [w c] eqn:Hwait.
  apply RunFacts.waitForNextMillisecond_suffix in Hwait as [used' Hused].
  destruct w; try discriminate. injection Hgen as _ _ ->.
  apply (f_equal (@length Z)) in Hused. rewrite length_app in Hused. cbn in Hused. lia.
Qed.

Lemma generate_keeps_invariant_witness :
  wellFormed (mkGenerator 0 1 2 6 0)
  /\ (epoch (mkGenerator 0 1 2 6 0), datacenterId (mkGenerator 0 1 2 6 0),
      workerId (mkGenerator 0 1 2 6 0))
     = (epoch (mkGenerator 0 1 2 5 4095), datacenterId (mkGenerator 0 1 2 5 4095),
        workerId (mkGenerator 0 1 2 5 4095))
  /\ lastTimestamp (mkGenerator 0 1 2 5 4095) <= lastTimestamp (mkGenerator 0 1 2 6 0)
  /\ In (lastTimestamp (mkGenerator 0 1 2 6 0)) [5; 5; 4; 6; 7]
  /\ exists used, used <> [] /\ [5; 5; 4; 6; 7] = used ++ [7].
Proof.
  apply (generate_keeps_invariant (mkGenerator 0 1 2 5 4095) [5; 5; 4; 6; 7]
           (js "25305088") (mkGenerator 0 1 2 6 0) [7]);
    [unfold wellFormed; cbn; lia | vm_compute; reflexivity].
Defined.

(** X9. The busy-wait ends: a call whose first reading is not before
    [lastTimestamp] returns an identifier as soon as the readings it is
    given contain one after [lastTimestamp]. *)
Theorem generate_returns_when_clock_advances (g : Generator) (now : Z) (rest : list Z) :
  lastTimestamp g <= now ->
  Exists (fun t => lastTimestamp g < t) (now :: rest) ->
  exists id g' clock', generate g (now :: rest) = (Return (id, g'), clock').
Proof.
  intros Hge Hex.
  rewrite GeneratorFacts.generate_nextFields, GeneratorFacts.nextFields_unfold.
  destruct (Z.ltb_spec now (lastTimestamp g)); [lia|].
  destruct (Z.eqb_spec now (lastTimestamp g)) as [->|Hne]; [|eauto].
  destruct (Z.land (sequence g + 1) MAX_SEQUENCE =? 0); [|cbv zeta; eauto].
  apply Exists_cons in Hex as [Hex|Hex]; [lia|].
  assert (forall timestamp, timestamp <= lastTimestamp g ->
            exists t c, waitForNextMillisecond (lastTimestamp g) timestamp rest
                        = (Return t, c)) as Hwait.
  { induction Hex as [t rest' Ht|r rest' _ IH]; intros timestamp Hts; cbn;
      destruct (Z.leb_spec timestamp (lastTimestamp g)); try lia.
    - destruct rest'; cbn; destruct (Z.leb_spec t (lastTimestamp g)); try lia; eauto.
    - destruct (Z.le_gt_cases r (lastTimestamp g)) as [Hr|Hr]; [apply IH; exact Hr|].
      destruct rest'; cbn; destruct (Z.leb_spec r (lastTimestamp g)); try lia; eauto. }
  destruct (Hwait (lastTimestamp g) ltac:(lia)) as (t & c & ->). eauto.
Qed.

Lemma generate_returns_when_clock_advances_witness :
  exists id g' clock',
    generate (mkGenerator 0 1 2 5 4095) (5 :: [5; 4; 6; 7]) = (Return (id, g'), clock').
Proof.
  apply (generate_returns_when_clock_advances (mkGenerator 0 1 2 5 4095) 5 [5; 4; 6; 7]).
  - cbn. lia.
  - do 3 apply Exists_cons_tl. apply Exists_cons_hd. cbn. lia.
Defined.

(** * Reading integers back with [parseInt] *)

Module TextFacts.
Import Builtin.

Lemma leadingDigits_all_digits s : forall a,
  Forall (fun c => isDecimalDigit c = true) s ->
  leadingDigits (Some a) s = digitsValue 10 a s.
Proof.
  induction s as [|c s IH]; intros a Hall; cbn; [reflexivity|].
  inversion Hall as [|? ? Hc Hs]; subst.
  destruct (DecimalFacts.digitValue_isDecimalDigit _ Hc) as (d & -> & _).
  apply IH. exact Hs.
Qed.

(** Reading stops at the first code unit that is not a digit. *)
Lemma leadingDigits_stop s c rest : forall acc,
  Forall (fun c => isDecimalDigit c = true) s ->
  digitValue 10 c = None ->
  leadingDigits acc (s ++ c :: rest) = leadingDigits acc s.
Proof.
  induction s as [|c0 s IH]; intros acc Hall Hc; cbn.
  - rewrite Hc. reflexivity.
  - inversion Hall as [|? ? Hc0 Hs]; subst.
    destruct (DecimalFacts.digitValue_isDecimalDigit _ Hc0) as (d & -> & _).
    apply IH; assumption.
Qed.

Lemma leadingDigits_NtoString n : leadingDigits None (NtoString n) = Some n.
Proof.
  pose proof (DecimalFacts.NtoString_digits n) as Hd.
  pose proof (DecimalFacts.NtoString_value n) as Hv.
  destruct (NtoString n) as [|c s] eqn:E;
    [exfalso; eapply DecimalFacts.NtoString_nonempty; exact E|].
  inversion Hd as [|? ? Hc Hs]; subst. cbn in Hv |- *.
  destruct (DecimalFacts.digitValue_isDecimalDigit _ Hc) as (d & Hdv & _).
  rewrite Hdv in Hv |- *. rewrite leadingDigits_all_digits by exact Hs.
  exact Hv.
Qed.

Lemma leadingDigits_NtoString_junk n junk :
  stops junk -> leadingDigits None (NtoString n ++ junk) = Some n.
Proof.
  intros Hj. destruct junk as [|c rest].
  - rewrite app_nil_r. apply leadingDigits_NtoString.
  - rewrite leadingDigits_stop by (try apply DecimalFacts.NtoString_digits; exact Hj).
    apply leadingDigits_NtoString.
Qed.

(** [parseInt] reads the decimal string of an integer that a double holds
    exactly back, and ignores what follows it. *)
Lemma parseInt10_toString_junk z junk :
  Z.abs z <= 2 ^ 53 -> stops junk -> parseInt10 (toString z ++ junk) = Some z.
Proof.
  intros Hz Hj. unfold parseInt10, toString.
  destruct (Z.ltb_spec z 0) as [Hneg|Hpos].
  - cbn [app trimStart]. change (StrWhiteSpaceChar 45) with false. cbv iota.
    cbn [N.eqb Pos.eqb]. rewrite leadingDigits_NtoString_junk by exact Hj.
    cbn [fmap option_fmap option_map]. f_equal.
    rewrite DoubleFacts.round_exact by lia. lia.
  - pose proof (DecimalFacts.NtoString_digits (Z.abs_N z)) as Hd.
    pose proof (leadingDigits_NtoString_junk (Z.abs_N z) junk Hj) as Hv.
    destruct (NtoString (Z.abs_N z)) as [|c s] eqn:E;
      [exfalso; eapply DecimalFacts.NtoString_nonempty; exact E|].
    inversion Hd as [|? ? Hc Hs]; subst.
    destruct (DecimalFacts.isDecimalDigit_plain _ Hc) as (Hws & H43 & H45 & _).
    cbn [app trimStart]. rewrite Hws, H45, H43.
    cbn [app] in Hv. rewrite Hv. cbn [fmap option_fmap option_map]. f_equal.
    rewrite DoubleFacts.round_exact by lia. lia.
Qed.

Lemma parseInt10_toString z : Z.abs z <= 2 ^ 53 -> parseInt10 (toString z) = Some z.
Proof.
  intros Hz. rewrite <- (app_nil_r (toString z)). now apply parseInt10_toString_junk.
Qed.

Lemma toString_nonempty z : toString z <> [].
Proof.
  unfold toString. destruct (z <? 0); [discriminate|].
  apply DecimalFacts.NtoString_nonempty.
Qed.

End TextFacts.

(** * The fingerprint hash *)

Module HashFacts.
Import Fingerprinting.

Lemma ToInt32_range x : - 2 ^ 31 <= ToInt32 x < 2 ^ 31.
Proof.
  unfold ToInt32. pose proof (Z.mod_pos_bound (x + 2 ^ 31) (2 ^ 32) ltac:(lia)). lia.
Qed.

(** [ToInt32] depends on its argument modulo 2^32 only. *)
Lemma ToInt32_congruent x y :
  x mod 2 ^ 32 = y mod 2 ^ 32 -> ToInt32 x = ToInt32 y.
Proof.
  intros H. unfold ToInt32. f_equal.
  rewrite <- (Zplus_mod_idemp_l x), H, Zplus_mod_idemp_l. reflexivity.
Qed.

Lemma ToInt32_mod x : ToInt32 x mod 2 ^ 32 = x mod 2 ^ 32.
Proof.
  unfold ToInt32.
  rewrite <- Zminus_mod_idemp_l, Z.mod_mod by lia.
  rewrite Zminus_mod_idemp_l. f_equal. lia.
Qed.

Lemma ToInt32_small x : - 2 ^ 31 <= x < 2 ^ 31 -> ToInt32 x = x.
Proof. intros H. unfold ToInt32. rewrite Z.mod_small; lia. Qed.

(** One round of the loop is [31 * hash + char], wrapped to 32 bits. *)
Lemma hashStep_wrapped hash char :
  hashStep hash char = ToInt32 (31 * hash + Z.of_N char).
Proof.
  unfold hashStep, bitwiseAnd, shiftLeft.
  rewrite Z.land_diag, (ToInt32_small (ToInt32 _)) by apply ToInt32_range.
  apply ToInt32_congruent.
  rewrite Z.shiftl_mul_pow2 by lia.
  rewrite <- Zplus_mod_idemp_l, <- Zminus_mod_idemp_l, ToInt32_mod.
  rewrite <- Zmult_mod_idemp_l, ToInt32_mod, Zmult_mod_idemp_l.
  rewrite Zminus_mod_idemp_l, Zplus_mod_idemp_l. f_equal. lia.
Qed.

Lemma hashCode_snoc s c : hashCode (s ++ [c]) = hashStep (hashCode s) c.
Proof. unfold hashCode. rewrite fold_left_app. reflexivity. Qed.

Lemma polynomial31_snoc s c :
  polynomial31 (s ++ [c]) = 31 * polynomial31 s + Z.of_N c.
Proof. unfold polynomial31. rewrite fold_left_app. reflexivity. Qed.

Lemma absMod32_range hash : 0 <= absMod32 hash <= 31.
Proof.
  unfold absMod32. pose proof (Z.rem_bound_pos (Z.abs hash) 32 ltac:(lia) ltac:(lia)).
  lia.
Qed.

(** [Math.floor(Math.random() * 32)] is one of 0, ..., 31. *)
Lemma random32_range (random : Q) :
  (0 <= random)%Q -> (random < 1)%Q -> 0 <= Qfloor (random * 32) <= 31.
Proof.
  destruct random as [a b]. unfold Qle, Qlt, Qfloor, Qmult. cbn.
  intros H0 H1. rewrite Pos.mul_1_r.
  split.
  - apply Z.div_pos; lia.
  - apply Z.lt_succ_r. apply Z.div_lt_upper_bound; lia.
Qed.

Lemma generateBrowserWorkerId_range navigator screen random :
  (0 <= random)%Q -> (random < 1)%Q ->
  0 <= generateBrowserWorkerId navigator screen random <= 31.
Proof.
  intros H0 H1. unfold generateBrowserWorkerId.
  destruct navigator, screen; try apply absMod32_range; now apply random32_range.
Qed.

Lemma withDefault_generateBrowserConfig fp dflt :
  withDefault (Browser.generateBrowserConfig fp) "epoch" dflt = dflt
  /\ withDefault (Browser.generateBrowserConfig fp) "datacenterId" dflt
     = Browser.generateBrowserDatacenterId fp
  /\ withDefault (Browser.generateBrowserConfig fp) "workerId" dflt
     = Browser.generateBrowserWorkerId fp.
Proof.
  unfold withDefault, Browser.generateBrowserConfig.
  repeat split; simplify_map_eq; reflexivity.
Qed.

Lemma createSnowflake_in_range config :
  0 <= withDefault config "datacenterId" 0 <= 31 ->
  0 <= withDefault config "workerId" 0 <= 31 ->
  createSnowflake config
  = Return (mkGenerator (withDefault config "epoch" DEFAULT_EPOCH)
                        (withDefault config "datacenterId" 0)
                        (withDefault config "workerId" 0) (-1) 0).
Proof.
  intros Hdc Hw. unfold createSnowflake.
  change MAX_DATACENTER_ID with 31. change MAX_WORKER_ID with 31.
  destruct (Z.ltb_spec (withDefault config "datacenterId" 0) 0); [lia|].
  destruct (Z.gtb_spec (withDefault config "datacenterId" 0) 31); [lia|].
  destruct (Z.ltb_spec (withDefault config "workerId" 0) 0); [lia|].
  destruct (Z.gtb_spec (withDefault config "workerId" 0) 31); [lia|].
  reflexivity.
Qed.

End HashFacts.

(** X10. The fingerprint hash is the polynomial hash with base 31 wrapped
    to a signed 32-bit integer: wrapping after every round gives the same
    result as wrapping the exact sum once. *)
Theorem hashCode_polynomial (s : jsstring) :
  Fingerprinting.hashCode s = Fingerprinting.ToInt32 (polynomial31 s).
Proof.
  induction s as [|c s IH] using rev_ind; [reflexivity|].
  rewrite HashFacts.hashCode_snoc, HashFacts.polynomial31_snoc,
    HashFacts.hashStep_wrapped, IH.
  apply HashFacts.ToInt32_congruent.
  rewrite <- Zplus_mod_idemp_l, <- Zmult_mod_idemp_r, HashFacts.ToInt32_mod.
  rewrite Zmult_mod_idemp_r, Zplus_mod_idemp_l. reflexivity.
Qed.

(** X11. Whatever the browser reports (any navigator, screen and time zone,
    present or missing) and whatever [Math.random()] in [0,1) returns, the
    two fingerprint ids lie in [0,31], so a generator built from
    [generateBrowserConfig()] alone is always constructed; the ids that
    [getBrowserFingerprint()] shows are in the same range. *)
Theorem fingerprint_ids_valid (navigator : option Fingerprinting.Navigator)
    (screen : option Fingerprinting.Screen) (timezone : jsstring) (random : Q) :
  (0 <= random)%Q -> (random < 1)%Q ->
  let fp := Fingerprinting.fingerprint navigator screen timezone random in
  let shown := Fingerprinting.getBrowserFingerprint navigator screen timezone random in
  0 <= Browser.generateBrowserDatacenterId fp <= 31
  /\ 0 <= Browser.generateBrowserWorkerId fp <= 31
  /\ 0 <= Fingerprinting.fingerprintDatacenterId shown <= 31
  /\ 0 <= Fingerprinting.fingerprintWorkerId shown <= 31
  /\ createSnowflake (Browser.generateBrowserConfig fp)
     = Return (mkGenerator DEFAULT_EPOCH (Browser.generateBrowserDatacenterId fp)
                           (Browser.generateBrowserWorkerId fp) (-1) 0).
Proof.
  intros H0 H1 fp shown.
  pose proof (HashFacts.absMod32_range (Fingerprinting.hashCode timezone)) as Hdc.
  pose proof (HashFacts.generateBrowserWorkerId_range navigator screen random H0 H1) as Hw.
  repeat split; try apply Hdc; try apply Hw.
  destruct (HashFacts.withDefault_generateBrowserConfig fp 0) as (_ & Edc & Ew).
  destruct (HashFacts.withDefault_generateBrowserConfig fp DEFAULT_EPOCH) as (Ee & _ & _).
  rewrite HashFacts.createSnowflake_in_range; rewrite ?Edc, ?Ew, ?Ee;
    [reflexivity | exact Hdc | exact Hw].
Qed.

Lemma fingerprint_ids_valid_witness :
  let fp := Fingerprinting.fingerprint None None (js "America/New_York") (7 # 8) in
  let shown :=
    Fingerprinting.getBrowserFingerprint None None (js "America/New_York") (7 # 8) in
  0 <= Browser.generateBrowserDatacenterId fp <= 31
  /\ 0 <= Browser.generateBrowserWorkerId fp <= 31
  /\ 0 <= Fingerprinting.fingerprintDatacenterId shown <= 31
  /\ 0 <= Fingerprinting.fingerprintWorkerId shown <= 31
  /\ createSnowflake (Browser.generateBrowserConfig fp)
     = Return (mkGenerator DEFAULT_EPOCH (Browser.generateBrowserDatacenterId fp)
                           (Browser.generateBrowserWorkerId fp) (-1) 0).
Proof.
  apply (fingerprint_ids_valid None None (js "America/New_York") (7 # 8));
    unfold Qle, Qlt; cbn; lia.
Defined.

(** The fingerprint of the browser that the tests mock. *)
Example fingerprint_of_test_browser :
  Fingerprinting.generateBrowserDatacenterId (js "America/New_York") = 17
  /\ Fingerprinting.generateBrowserWorkerId
       (Some (Fingerprinting.mkNavigator
                (Some (js "Mozilla/5.0 (Windows NT 10.0; Win64; x64) AppleWebKit/537.36"))
                (Some (js "en-US")) (Some 8)))
       (Some (Fingerprinting.mkScreen (Some 1920) (Some 1080) (Some 24))) 0 = 7
  /\ Fingerprinting.generateBrowserWorkerId None None (7 # 8) = 28.
Proof. repeat split; vm_compute; reflexivity. Qed.

(** * The stored configuration *)

Module StorageFacts.

Lemma createSnowflake_throws_iff config :
  (exists e, createSnowflake config = Throw e)
  <-> ~ (0 <= withDefault config "datacenterId" 0 <= 31
         /\ 0 <= withDefault config "workerId" 0 <= 31).
Proof.
  split.
  - intros [e He] [Hdc Hw].
    rewrite HashFacts.createSnowflake_in_range in He by assumption. discriminate.
  - intros Hnot. destruct (createSnowflake config) as [g|e|] eqn:E; [|eauto|].
    + exfalso. apply Hnot.
      destruct (GeneratorFacts.createSnowflake_fields _ _ E) as (_ & <- & <-).
      apply GeneratorFacts.createSnowflake_wellFormed in E as [(? & ? & _) _]. lia.
    + exfalso. revert E. unfold createSnowflake.
      destruct (_ || _); [discriminate|]. destruct (_ || _); discriminate.
Qed.

(** What [parseLocalStorageInt] returns is [undefined] or within bounds. *)
Lemma parseLocalStorageInt_number localStorage key min max n :
  Browser.parseLocalStorageInt localStorage key min max = number n ->
  min <= n <= max
  /\ exists items text, localStorage = Some items /\ items !! key = Some text
                        /\ text <> [] /\ Builtin.parseInt10 text = Some n.
Proof.
  unfold Browser.parseLocalStorageInt.
  destruct localStorage as [items|]; [|discriminate].
  destruct (items !! key) as [[|c text]|] eqn:E; try discriminate.
  destruct (Builtin.parseInt10 (c :: text)) as [parsed|] eqn:Hp; [|discriminate].
  destruct (Z.ltb_spec parsed min); destruct (Z.gtb_spec parsed max);
    cbn [orb]; try discriminate.
  intros [= ->]. split; [lia|]. exists items, (c :: text).
  split; [reflexivity|]. split; [exact E|]. split; [discriminate | exact Hp].
Qed.

Lemma parseLocalStorageInt_stored items key min max n :
  items !! key = Some (Builtin.toString n) -> min <= n <= max -> Z.abs n <= 2 ^ 53 ->
  Browser.parseLocalStorageInt (Some items) key min max = number n.
Proof.
  intros Hlook Hrange Hsafe. unfold Browser.parseLocalStorageInt. rewrite Hlook.
  pose proof (TextFacts.toString_nonempty n) as Hne.
  pose proof (TextFacts.parseInt10_toString n Hsafe) as Hp.
  destruct (Builtin.toString n) as [|c text]; [congruence|]. rewrite Hp.
  destruct (Z.ltb_spec n min); [lia|]. destruct (Z.gtb_spec n max); [lia|]. reflexivity.
Qed.

Lemma loadConfigFromStorage_epoch items :
  Browser.loadConfigFromStorage (Some items) !! "epoch"
  = match items !! Browser.EPOCH with
    | Some (c :: text) => number <$> Builtin.parseInt10 (c :: text)
    | _ => None
    end.
Proof.
  unfold Browser.loadConfigFromStorage.
  rewrite !lookup_insert_ne by discriminate.
  destruct (items !! Browser.EPOCH) as [[|c text]|]; try apply lookup_empty.
  destruct (Builtin.parseInt10 (c :: text)); [apply lookup_insert_eq | apply lookup_empty].
Qed.

(** The ids that [loadConfigFromStorage] returns pass validation. *)
Lemma loadConfigFromStorage_ids localStorage key :
  key = "datacenterId" \/ key = "workerId" ->
  match Browser.loadConfigFromStorage localStorage !! key with
  | Some (number n) => 0 <= n <= 31
  | _ => True
  end.
Proof.
  intros Hkey. destruct localStorage as [items|]; [|cbn; rewrite lookup_empty; exact I].
  destruct Hkey as [-> | ->].
  - rewrite AdapterFacts.loadConfigFromStorage_datacenterId.
    destruct (Browser.parseLocalStorageInt _ _ _ _) eqn:E; [exact I|].
    apply parseLocalStorageInt_number in E. tauto.
  - rewrite AdapterFacts.loadConfigFromStorage_workerId.
    destruct (Browser.parseLocalStorageInt _ _ _ _) eqn:E; [exact I|].
    apply parseLocalStorageInt_number in E. tauto.
Qed.

Lemma withDefault_range (config : gmap string jsvalue) key :
  match config !! key with
  | Some (number n) => 0 <= n <= 31
  | _ => True
  end ->
  0 <= withDefault config key 0 <= 31.
Proof. unfold withDefault. destruct (config !! key) as [[|n]|]; lia. Qed.

(** The items after [saveConfigToStorage], key by key. *)
Lemma saveField_lookup config key name items k :
  Stored.saveField config key name items !! k
  = match config !! key with
    | Some (number n) => if decide (name = k) then Some (Builtin.toString n) else items !! k
    | _ => items !! k
    end.
Proof.
  unfold Stored.saveField. destruct (config !! key) as [[|n]|]; try reflexivity.
  apply lookup_insert.
Qed.

Lemma saveConfigToStorage_lookup config items :
  exists items',
    Stored.saveConfigToStorage config (Some items) = Some items'
    /\ items' !! Browser.EPOCH = savedItem config "epoch" (items !! Browser.EPOCH)
    /\ items' !! Browser.DATACENTER_ID
       = savedItem config "datacenterId" (items !! Browser.DATACENTER_ID)
    /\ items' !! Browser.WORKER_ID
       = savedItem config "workerId" (items !! Browser.WORKER_ID)
    /\ forall k, k <> Browser.EPOCH -> k <> Browser.DATACENTER_ID ->
                 k <> Browser.WORKER_ID -> items' !! k = items !! k.
Proof.
  eexists. split; [reflexivity|]. unfold savedItem.
  repeat split; intros; rewrite !saveField_lookup;
    destruct (config !! "epoch") as [[|?]|];
    destruct (config !! "datacenterId") as [[|?]|];
    destruct (config !! "workerId") as [[|?]|];
    repeat case_decide; try reflexivity; try discriminate; congruence.
Qed.

End StorageFacts.

(** X12. [parseLocalStorageInt] never returns a number outside
    [min, max]: the decimal string of a safe integer [n] stored under the
    key is read back as [n] when [min <= n <= max] and as [undefined]
    otherwise, and any number it returns, from whatever text, lies within
    the bounds. *)
Theorem parseLocalStorageInt_bounds (items : gmap string jsstring) (key : string)
    (min max : Z) :
  (forall n, Z.abs n <= MAX_SAFE_INTEGER ->
             items !! key = Some (Builtin.toString n) ->
             Browser.parseLocalStorageInt (Some items) key min max
             = if (min <=? n) && (n <=? max) then number n else undefined)
  /\ (forall n, Browser.parseLocalStorageInt (Some items) key min max = number n ->
                min <= n <= max).
Proof.
  split.
  - intros n Hsafe Hlook.
    assert (Z.abs n <= 2 ^ 53) as Hexact by (unfold MAX_SAFE_INTEGER in Hsafe; lia).
    destruct (Z.leb_spec min n); destruct (Z.leb_spec n max); cbn [andb];
      try (apply StorageFacts.parseLocalStorageInt_stored; [exact Hlook | lia | exact Hexact]);
      unfold Browser.parseLocalStorageInt; rewrite Hlook;
      pose proof (TextFacts.toString_nonempty n) as Hne;
      pose proof (TextFacts.parseInt10_toString n Hexact) as Hp;
      (destruct (Builtin.toString n) as [|c text]; [congruence|]); rewrite Hp;
      destruct (Z.ltb_spec n min); destruct (Z.gtb_spec n max); cbn [orb];
      first [reflexivity | lia].
  - intros n H. apply StorageFacts.parseLocalStorageInt_number in H. tauto.
Qed.

(** X13. With fingerprint ids in [0,31], [createSnowflakeFromStorage]
    throws exactly when the overrides hold a datacenterId or workerId
    outside [0,31]: nothing that [localStorage] contains, and no missing
    [localStorage], can make it fail. *)
Theorem createSnowflakeFromStorage_throws_iff (overrides : gmap string jsvalue)
    (localStorage : option (gmap string jsstring)) (fp : Browser.Fingerprint) :
  0 <= Browser.generateBrowserDatacenterId fp <= 31 ->
  0 <= Browser.generateBrowserWorkerId fp <= 31 ->
  (exists e, Browser.createSnowflakeFromStorage overrides localStorage fp = Throw e)
  <-> exists n, (overrides !! "datacenterId" = Some (number n)
                 \/ overrides !! "workerId" = Some (number n))
                /\ (n < 0 \/ 31 < n).
Proof.
  intros Hfdc Hfw. unfold Browser.createSnowflakeFromStorage.
  rewrite StorageFacts.createSnowflake_throws_iff.
  rewrite !AdapterFacts.withDefault_spread.
  destruct (HashFacts.withDefault_generateBrowserConfig fp 0) as (_ & -> & ->).
  pose proof (StorageFacts.loadConfigFromStorage_ids localStorage "datacenterId"
                ltac:(left; reflexivity)) as Hsdc.
  pose proof (StorageFacts.loadConfigFromStorage_ids localStorage "workerId"
                ltac:(right; reflexivity)) as Hsw.
  set (sdc := match Browser.loadConfigFromStorage localStorage !! "datacenterId" with
              | Some (number n) => n
              | Some undefined => 0
              | None => Browser.generateBrowserDatacenterId fp
              end).
  set (sw := match Browser.loadConfigFromStorage localStorage !! "workerId" with
             | Some (number n) => n
             | Some undefined => 0
             | None => Browser.generateBrowserWorkerId fp
             end).
  assert (0 <= sdc <= 31) as Hdc
    by (subst sdc; destruct (_ !! "datacenterId") as [[|?]|]; lia).
  assert (0 <= sw <= 31) as Hw
    by (subst sw; destruct (_ !! "workerId") as [[|?]|]; lia).
  clearbody sdc sw.
  destruct (overrides !! "datacenterId") as [[|d]|];
    destruct (overrides !! "workerId") as [[|w]|];
    (split;
     [ intros Hnot;
       first [ exfalso; apply Hnot; lia
             | assert (d < 0 \/ 31 < d \/ w < 0 \/ 31 < w) as [?|[?|[?|?]]] by lia;
               [exists d|exists d|exists w|exists w]; split; auto
             | assert (d < 0 \/ 31 < d) as [?|?] by lia; exists d; split; auto
             | assert (w < 0 \/ 31 < w) as [?|?] by lia; exists w; split; auto ]
     | intros (n & [Hn|Hn] & Hbad); try discriminate;
       injection Hn as ->; lia ]).
Qed.

Lemma createSnowflakeFromStorage_throws_iff_witness :
  (exists e,
      Browser.createSnowflakeFromStorage {[ "workerId" := number 32 ]}
        (Some {[ Browser.DATACENTER_ID := js "99" ]}) (Browser.mkFingerprint 7 9)
      = Throw e)
  <-> exists n, (({[ "workerId" := number 32 ]} : gmap string jsvalue) !! "datacenterId"
                 = Some (number n)
                 \/ ({[ "workerId" := number 32 ]} : gmap string jsvalue) !! "workerId"
                    = Some (number n))
                /\ (n < 0 \/ 31 < n).
Proof.
  apply (createSnowflakeFromStorage_throws_iff {[ "workerId" := number 32 ]}
           (Some {[ Browser.DATACENTER_ID := js "99" ]}) (Browser.mkFingerprint 7 9));
    cbn; lia.
Defined.

(** X14. Saving and loading round-trip: after [saveConfigToStorage] of a
    configuration with an epoch that is a safe integer and with datacenterId
    and workerId in [0,31], [loadConfigFromStorage] returns exactly these
    three values, whatever the storage held before. *)
Theorem save_then_load (config : gmap string jsvalue)
    (items : gmap string jsstring) (e d w : Z) :
  config !! "epoch" = Some (number e) ->
  config !! "datacenterId" = Some (number d) ->
  config !! "workerId" = Some (number w) ->
  Z.abs e <= MAX_SAFE_INTEGER -> 0 <= d <= 31 -> 0 <= w <= 31 ->
  Browser.loadConfigFromStorage (Stored.saveConfigToStorage config (Some items))
  = <["workerId" := number w]>
      (<["datacenterId" := number d]> (<["epoch" := number e]> ∅)).
Proof.
  intros He Hd Hw Hsafe Hdr Hwr.
  destruct (StorageFacts.saveConfigToStorage_lookup config items)
    as (items' & -> & Hle & Hld & Hlw & _).
  unfold savedItem in *. rewrite He in Hle. rewrite Hd in Hld. rewrite Hw in Hlw.
  unfold Browser.loadConfigFromStorage.
  rewrite (StorageFacts.parseLocalStorageInt_stored _ _ _ _ _ Hld Hdr ltac:(lia)).
  rewrite (StorageFacts.parseLocalStorageInt_stored _ _ _ _ _ Hlw Hwr ltac:(lia)).
  rewrite Hle.
  pose proof (TextFacts.toString_nonempty e) as Hne.
  pose proof (TextFacts.parseInt10_toString e
                ltac:(unfold MAX_SAFE_INTEGER in Hsafe; lia)) as Hp.
  destruct (Builtin.toString e) as [|c text]; [congruence|]. rewrite Hp. reflexivity.
Qed.

Lemma save_then_load_witness :
  Browser.loadConfigFromStorage
    (Stored.saveConfigToStorage
       (<["workerId" := number 10]>
          (<["datacenterId" := number 5]> (<["epoch" := number 1234567890000]> ∅)))
       (Some {[ Browser.WORKER_ID := js "junk" ]}))
  = <["workerId" := number 10]>
      (<["datacenterId" := number 5]> (<["epoch" := number 1234567890000]> ∅)).
Proof.
  apply (save_then_load _ {[ Browser.WORKER_ID := js "junk" ]} 1234567890000 5 10);
    first [ (vm_compute; reflexivity) | (unfold MAX_SAFE_INTEGER; cbn; lia) | lia ].
Defined.

(** X15. [saveConfigToStorage] writes only the fields that hold a number:
    for a configuration whose numbers are safe integers, each of the three
    storage keys ends up with the field's decimal string when the
    configuration holds a number for it and keeps its previous item (or
    absence) when the field is missing or [undefined]; every other key of
    the storage is left as it was; without [localStorage] nothing is
    stored. *)
Theorem saveConfigToStorage_frame (config : gmap string jsvalue)
    (items : gmap string jsstring) :
  safeNumbers config ->
  Stored.saveConfigToStorage config None = None
  /\ exists items',
       Stored.saveConfigToStorage config (Some items) = Some items'
       /\ items' !! Browser.EPOCH = savedItem config "epoch" (items !! Browser.EPOCH)
       /\ items' !! Browser.DATACENTER_ID
          = savedItem config "datacenterId" (items !! Browser.DATACENTER_ID)
       /\ items' !! Browser.WORKER_ID
          = savedItem config "workerId" (items !! Browser.WORKER_ID)
       /\ forall k, k <> Browser.EPOCH -> k <> Browser.DATACENTER_ID ->
                    k <> Browser.WORKER_ID -> items' !! k = items !! k.
Proof.
  intros _. split; [reflexivity | apply StorageFacts.saveConfigToStorage_lookup].
Qed.

Lemma saveConfigToStorage_frame_witness :
  Stored.saveConfigToStorage {[ "workerId" := number 10 ]} None = None
  /\ exists items',
       Stored.saveConfigToStorage {[ "workerId" := number 10 ]}
         (Some {[ Browser.EPOCH := js "1577836800000" ]}) = Some items'
       /\ items' !! Browser.EPOCH
          = savedItem {[ "workerId" := number 10 ]} "epoch"
              (({[ Browser.EPOCH := js "1577836800000" ]} : gmap string jsstring)
                 !! Browser.EPOCH)
       /\ items' !! Browser.DATACENTER_ID
          = savedItem {[ "workerId" := number 10 ]} "datacenterId"
              (({[ Browser.EPOCH := js "1577836800000" ]} : gmap string jsstring)
                 !! Browser.DATACENTER_ID)
       /\ items' !! Browser.WORKER_ID
          = savedItem {[ "workerId" := number 10 ]} "workerId"
              (({[ Browser.EPOCH := js "1577836800000" ]} : gmap string jsstring)
                 !! Browser.WORKER_ID)
       /\ forall k, k <> Browser.EPOCH -> k <> Browser.DATACENTER_ID ->
                    k <> Browser.WORKER_ID ->
                    items' !! k
                    = ({[ Browser.EPOCH := js "1577836800000" ]} : gmap string jsstring)
                        !! k.
Proof.
  apply (saveConfigToStorage_frame {[ "workerId" := number 10 ]}
           {[ Browser.EPOCH := js "1577836800000" ]}).
  intros key n Hlook. apply lookup_singleton_Some in Hlook as [_ [= <-]].
  unfold MAX_SAFE_INTEGER. cbn. lia.
Defined.

(** X16. After [clearStoredConfig] the stored configuration is gone
    whatever it was: [loadConfigFromStorage] returns no epoch and
    [undefined] for both ids, and every other key of the storage is left as
    it was. *)
Theorem clear_then_load (items : gmap string jsstring) :
  exists items',
    Stored.clearStoredConfig (Some items) = Some items'
    /\ Browser.loadConfigFromStorage (Some items')
       = <["workerId" := undefined]> (<["datacenterId" := undefined]> ∅)
    /\ forall k, k <> Browser.EPOCH -> k <> Browser.DATACENTER_ID ->
                 k <> Browser.WORKER_ID -> items' !! k = items !! k.
Proof.
  eexists. split; [reflexivity|]. split.
  - unfold Browser.loadConfigFromStorage, Browser.parseLocalStorageInt.
    rewrite lookup_delete_eq.
    rewrite (lookup_delete_ne _ Browser.WORKER_ID Browser.DATACENTER_ID) by discriminate.
    rewrite lookup_delete_eq.
    rewrite (lookup_delete_ne _ Browser.WORKER_ID Browser.EPOCH) by discriminate.
    rewrite (lookup_delete_ne _ Browser.DATACENTER_ID Browser.EPOCH) by discriminate.
    rewrite lookup_delete_eq. reflexivity.
  - intros k H1 H2 H3. rewrite !lookup_delete_ne by congruence. reflexivity.
Qed.

(** X17. A saved identity is stable: after
    [initializeBrowserConfig({ save: true })] with fingerprint ids in
    [0,31], [createSnowflakeFromStorage()] returns a generator with exactly
    those ids, also when the fingerprint computed at that later time is a
    different one. *)
Theorem initialize_then_create (fp fp' : Browser.Fingerprint)
    (items : gmap string jsstring) :
  0 <= Browser.generateBrowserDatacenterId fp <= 31 ->
  0 <= Browser.generateBrowserWorkerId fp <= 31 ->
  exists g,
    Browser.createSnowflakeFromStorage ∅
      (snd (Stored.initializeBrowserConfig true ∅ fp (Some items))) fp' = Return g
    /\ datacenterId g = Browser.generateBrowserDatacenterId fp
    /\ workerId g = Browser.generateBrowserWorkerId fp.
Proof.
  intros Hdc Hw. unfold Stored.initializeBrowserConfig. cbn [snd].
  destruct (StorageFacts.saveConfigToStorage_lookup
              (spread (Browser.generateBrowserConfig fp) ∅) items)
    as (items' & -> & _ & Hld & Hlw & _).
  unfold savedItem, spread in Hld, Hlw. rewrite (left_id_L ∅ (∪)) in Hld, Hlw.
  unfold Browser.generateBrowserConfig in Hld, Hlw.
  rewrite lookup_insert_ne, lookup_insert_eq in Hld by discriminate.
  rewrite lookup_insert_eq in Hlw.
  unfold Browser.createSnowflakeFromStorage.
  assert (withDefault (spread (spread (Browser.generateBrowserConfig fp')
                                      (Browser.loadConfigFromStorage (Some items'))) ∅)
                      "datacenterId" 0 = Browser.generateBrowserDatacenterId fp) as Edc.
  { rewrite !AdapterFacts.withDefault_spread, lookup_empty,
      AdapterFacts.loadConfigFromStorage_datacenterId.
    rewrite (StorageFacts.parseLocalStorageInt_stored _ _ _ _ _ Hld Hdc ltac:(lia)).
    reflexivity. }
  assert (withDefault (spread (spread (Browser.generateBrowserConfig fp')
                                      (Browser.loadConfigFromStorage (Some items'))) ∅)
                      "workerId" 0 = Browser.generateBrowserWorkerId fp) as Ew.
  { rewrite !AdapterFacts.withDefault_spread, lookup_empty,
      AdapterFacts.loadConfigFromStorage_workerId.
    rewrite (StorageFacts.parseLocalStorageInt_stored _ _ _ _ _ Hlw Hw ltac:(lia)).
    reflexivity. }
  eexists. split; [apply HashFacts.createSnowflake_in_range; rewrite ?Edc, ?Ew; assumption|].
  cbn [datacenterId workerId]. split; assumption.
Qed.

Lemma initialize_then_create_witness :
  exists g,
    Browser.createSnowflakeFromStorage ∅
      (snd (Stored.initializeBrowserConfig true ∅ (Browser.mkFingerprint 17 7) (Some ∅)))
      (Browser.mkFingerprint 3 4) = Return g
    /\ datacenterId g = Browser.generateBrowserDatacenterId (Browser.mkFingerprint 17 7)
    /\ workerId g = Browser.generateBrowserWorkerId (Browser.mkFingerprint 17 7).
Proof.
  apply (initialize_then_create (Browser.mkFingerprint 17 7) (Browser.mkFingerprint 3 4) ∅);
    cbn; lia.
Defined.

(** * The environment adapter *)

Module NodeFacts.

Lemma parseEnvInt_cases value min max name :
  match Node.parseEnvInt value min max name with
  | Return undefined => value = None \/ value = Some []
  | Return (number n) =>
      min <= n <= max
      /\ exists c text, value = Some (c :: text) /\ Builtin.parseInt10 (c :: text) = Some n
  | Throw _ =>
      exists c text,
        value = Some (c :: text)
        /\ match Builtin.parseInt10 (c :: text) with
           | Some n => ((min <=? n) && (n <=? max)) = false
           | None => True
           end
  | Pending => False
  end.
Proof.
  unfold Node.parseEnvInt. destruct value as [[|c text]|]; [tauto| |tauto].
  destruct (Builtin.parseInt10 (c :: text)) as [parsed|] eqn:Hp.
  - destruct (Z.ltb_spec parsed min); destruct (Z.gtb_spec parsed max); cbn [orb].
    + exists c, text. rewrite Hp. split; [reflexivity|].
      destruct (Z.leb_spec min parsed); [lia | reflexivity].
    + exists c, text. rewrite Hp. split; [reflexivity|].
      destruct (Z.leb_spec min parsed); [lia | reflexivity].
    + exists c, text. rewrite Hp. split; [reflexivity|].
      destruct (Z.leb_spec parsed max); [lia | apply andb_false_r].
    + split; [lia|]. eauto.
  - exists c, text. rewrite Hp. split; [reflexivity | exact I].
Qed.

(** What a successful [loadConfigFromEnv] returns, field by field. *)
Lemma loadConfigFromEnv_Return env config :
  Node.loadConfigFromEnv env = Return config ->
  exists datacenterId workerId,
    Node.parseEnvInt (env !! Node.DATACENTER_ID) 0 31 Node.DATACENTER_ID
    = Return datacenterId
    /\ Node.parseEnvInt (env !! Node.WORKER_ID) 0 31 Node.WORKER_ID = Return workerId
    /\ config !! "datacenterId" = Some datacenterId
    /\ config !! "workerId" = Some workerId.
Proof.
  unfold Node.loadConfigFromEnv.
  destruct (match env !! Node.EPOCH with
            | Some (c :: text) => _
            | _ => _
            end) as [config0|e|]; try discriminate.
  destruct (Node.parseEnvInt (env !! Node.DATACENTER_ID) 0 31 Node.DATACENTER_ID)
    as [dc|e|]; try discriminate.
  destruct (Node.parseEnvInt (env !! Node.WORKER_ID) 0 31 Node.WORKER_ID)
    as [w|e|]; try discriminate.
  intros [= <-]. exists dc, w. repeat split.
  - rewrite lookup_insert_ne by discriminate. apply lookup_insert_eq.
  - apply lookup_insert_eq.
Qed.

Lemma loadConfigFromEnv_ids env config key :
  Node.loadConfigFromEnv env = Return config ->
  key = "datacenterId" \/ key = "workerId" ->
  match config !! key with
  | Some (number n) => 0 <= n <= 31
  | _ => True
  end.
Proof.
  intros Hload Hkey.
  apply loadConfigFromEnv_Return in Hload as (dc & w & Hdc & Hw & Hldc & Hlw).
  pose proof (parseEnvInt_cases (env !! Node.DATACENTER_ID) 0 31 Node.DATACENTER_ID) as Cdc.
  pose proof (parseEnvInt_cases (env !! Node.WORKER_ID) 0 31 Node.WORKER_ID) as Cw.
  rewrite Hdc in Cdc. rewrite Hw in Cw.
  destruct Hkey as [-> | ->]; [rewrite Hldc; destruct dc | rewrite Hlw; destruct w];
    tauto.
Qed.

Lemma parseEnvInt_stored n junk min max name :
  Z.abs n <= 2 ^ 53 -> min <= n <= max -> stops junk ->
  Node.parseEnvInt (Some (Builtin.toString n ++ junk)) min max name = Return (number n).
Proof.
  intros Hsafe Hrange Hj. unfold Node.parseEnvInt.
  pose proof (TextFacts.toString_nonempty n) as Hne.
  pose proof (TextFacts.parseInt10_toString_junk n junk Hsafe Hj) as Hp.
  destruct (Builtin.toString n ++ junk) as [|c text] eqn:E.
  - apply app_eq_nil in E as [E _]. congruence.
  - rewrite Hp. destruct (Z.ltb_spec n min); [lia|].
    destruct (Z.gtb_spec n max); [lia|]. reflexivity.
Qed.

(** A one-shot call returns the identifier of a generator that kept the
    configuration. *)
Lemma oneShot_Return g clock id clock' :
  wellFormed g ->
  (let* '(id, _) := generate g in ret id) clock = (Return id, clock') ->
  exists g', wellFormed g' /\ datacenterId g' = datacenterId g
             /\ workerId g' = workerId g /\ epoch g' = epoch g
             /\ id = Builtin.toString (lastIdentifier g').
Proof.
  intros Hwf. unfold bind, ret.
  destruct (generate g clock) as [[[id0 g0]|e|] c] eqn:Hgen; try discriminate.
  intros [= <- <-].
  destruct (RunFacts.generate_progress _ _ _ _ _ Hwf Hgen) as (Hwf' & He & Hdc & Hw & Hid & _).
  exists g0. repeat split; try assumption; apply Hwf'.
Qed.

End NodeFacts.

(** X18. Whenever [loadConfigFromEnv] returns a configuration,
    [createSnowflake] accepts it: [createSnowflakeFromEnv] without overrides
    returns a generator whose ids lie in [0,31], and when it throws the
    exception is the one [loadConfigFromEnv] threw. *)
Theorem createSnowflakeFromEnv_no_overrides (env : gmap string jsstring) :
  match Node.loadConfigFromEnv env with
  | Return config =>
      exists g, Node.createSnowflakeFromEnv ∅ env = Return g
                /\ createSnowflake config = Return g
                /\ 0 <= datacenterId g <= 31 /\ 0 <= workerId g <= 31
  | Throw e => Node.createSnowflakeFromEnv ∅ env = Throw e
  | Pending => False
  end.
Proof.
  unfold Node.createSnowflakeFromEnv.
  destruct (Node.loadConfigFromEnv env) as [config|e|] eqn:Hload; [|reflexivity|].
  - unfold spread. rewrite (left_id_L ∅ (∪)).
    pose proof (StorageFacts.withDefault_range config "datacenterId"
                  (NodeFacts.loadConfigFromEnv_ids _ _ _ Hload ltac:(left; reflexivity))) as Hdc.
    pose proof (StorageFacts.withDefault_range config "workerId"
                  (NodeFacts.loadConfigFromEnv_ids _ _ _ Hload ltac:(right; reflexivity))) as Hw.
    eexists. rewrite HashFacts.createSnowflake_in_range by assumption.
    repeat split; cbn; lia.
  - revert Hload. unfold Node.loadConfigFromEnv.
    destruct (match env !! Node.EPOCH with
              | Some (c :: text) => _
              | _ => _
              end) as [config0|e|] eqn:E; try discriminate.
    + pose proof (NodeFacts.parseEnvInt_cases (env !! Node.DATACENTER_ID) 0 31
                    Node.DATACENTER_ID) as Cdc.
      destruct (Node.parseEnvInt (env !! Node.DATACENTER_ID) 0 31 Node.DATACENTER_ID);
        try discriminate; [|contradiction].
      pose proof (NodeFacts.parseEnvInt_cases (env !! Node.WORKER_ID) 0 31
                    Node.WORKER_ID) as Cw.
      destruct (Node.parseEnvInt (env !! Node.WORKER_ID) 0 31 Node.WORKER_ID);
        try discriminate; contradiction.
    + destruct (env !! Node.EPOCH) as [[|c text]|]; try discriminate.
      destruct (Builtin.parseInt10 (c :: text)); discriminate.
Qed.

(** X19. [loadConfigFromEnv] throws exactly when one of the three
    variables is set to a non-empty text that [parseInt] cannot read, or,
    for the two ids, reads as an integer outside [0,31]; unset and empty
    variables are never an error. *)
Theorem loadConfigFromEnv_throws_iff (env : gmap string jsstring) :
  (exists e, Node.loadConfigFromEnv env = Throw e)
  <-> rejected (env !! Node.EPOCH) (fun _ => true)
      \/ rejected (env !! Node.DATACENTER_ID) idInRange
      \/ rejected (env !! Node.WORKER_ID) idInRange.
Proof.
  pose proof (NodeFacts.parseEnvInt_cases (env !! Node.DATACENTER_ID) 0 31
                Node.DATACENTER_ID) as Cdc.
  pose proof (NodeFacts.parseEnvInt_cases (env !! Node.WORKER_ID) 0 31
                Node.WORKER_ID) as Cw.
  assert (forall value name,
             match Node.parseEnvInt value 0 31 name with
             | Return _ => ~ rejected value idInRange
             | _ => True
             end) as Hok.
  { intros value name. pose proof (NodeFacts.parseEnvInt_cases value 0 31 name) as C.
    destruct (Node.parseEnvInt value 0 31 name) as [[|n]|e|]; try exact I;
      intros (c & text & Hv & Hr).
    - destruct C as [C|C]; congruence.
    - destruct C as (Hrange & c' & text' & Hv' & Hp). rewrite Hv in Hv'.
      injection Hv' as <- <-. rewrite Hp in Hr. unfold idInRange in Hr.
      destruct (Z.leb_spec 0 n); destruct (Z.leb_spec n 31); cbn in Hr;
        first [discriminate | lia]. }
  pose proof (Hok (env !! Node.DATACENTER_ID) Node.DATACENTER_ID) as Odc.
  pose proof (Hok (env !! Node.WORKER_ID) Node.WORKER_ID) as Ow.
  unfold Node.loadConfigFromEnv, rejected at 1.
  destruct (env !! Node.EPOCH) as [[|c text]|] eqn:Eepoch.
  1,3: destruct (Node.parseEnvInt (env !! Node.DATACENTER_ID) 0 31 Node.DATACENTER_ID)
         as [dc|e|]; [|split; [intros _; right; left; exact Cdc | eauto]|contradiction];
       (destruct (Node.parseEnvInt (env !! Node.WORKER_ID) 0 31 Node.WORKER_ID)
          as [w|e|]; [|split; [intros _; right; right; exact Cw | eauto]|contradiction]);
       (split; [intros [e He]; discriminate
               | intros [(c' & text' & Hv & _)|[H|H]]; [discriminate| |]; contradiction]).
  destruct (Builtin.parseInt10 (c :: text)) as [epoch0|] eqn:Hp.
  - destruct (Node.parseEnvInt (env !! Node.DATACENTER_ID) 0 31 Node.DATACENTER_ID)
      as [dc|e|]; [|split; [intros _; right; left; exact Cdc | eauto]|contradiction].
    destruct (Node.parseEnvInt (env !! Node.WORKER_ID) 0 31 Node.WORKER_ID)
      as [w|e|]; [|split; [intros _; right; right; exact Cw | eauto]|contradiction].
    split; [intros [e He]; discriminate|].
    intros [(c' & text' & Hv & Hr)|[H|H]]; try contradiction.
    injection Hv as <- <-. rewrite Hp in Hr. discriminate.
  - split; [|eauto]. intros _. left. exists c, text. rewrite Hp. split; [reflexivity | exact I].
Qed.

(** X20. Both adapters read a stored integer the way [parseInt] does: when
    the text is the decimal string of a safe integer [n] within the bounds,
    followed by nothing or by anything that starts with a code unit that is
    not a decimal digit, [parseEnvInt] and [parseLocalStorageInt] return
    [n], without an error and without a warning value. *)
Theorem adapters_ignore_trailing_text (n min max : Z) (junk : jsstring)
    (name key : string) (items : gmap string jsstring) :
  Z.abs n <= MAX_SAFE_INTEGER ->
  min <= n <= max -> stops junk ->
  Node.parseEnvInt (Some (Builtin.toString n ++ junk)) min max name = Return (number n)
  /\ (items !! key = Some (Builtin.toString n ++ junk) ->
      Browser.parseLocalStorageInt (Some items) key min max = number n).
Proof.
  intros Hsafe Hrange Hj.
  assert (Z.abs n <= 2 ^ 53) as Hexact by (unfold MAX_SAFE_INTEGER in Hsafe; lia).
  split; [now apply NodeFacts.parseEnvInt_stored|].
  intros Hlook. unfold Browser.parseLocalStorageInt. rewrite Hlook.
  pose proof (TextFacts.toString_nonempty n) as Hne.
  pose proof (TextFacts.parseInt10_toString_junk n junk Hexact Hj) as Hp.
  destruct (Builtin.toString n ++ junk) as [|c text] eqn:E.
  - apply app_eq_nil in E as [E _]. congruence.
  - rewrite Hp. destruct (Z.ltb_spec n min); [lia|].
    destruct (Z.gtb_spec n max); [lia|]. reflexivity.
Qed.

Lemma adapters_ignore_trailing_text_witness :
  Node.parseEnvInt (Some (Builtin.toString 5 ++ js ".9 px")) 0 31 Node.DATACENTER_ID
  = Return (number 5)
  /\ (({[ Browser.WORKER_ID := js "5.9 px" ]} : gmap string jsstring) !! Browser.WORKER_ID
      = Some (Builtin.toString 5 ++ js ".9 px") ->
      Browser.parseLocalStorageInt (Some {[ Browser.WORKER_ID := js "5.9 px" ]})
        Browser.WORKER_ID 0 31 = number 5).
Proof.
  apply (adapters_ignore_trailing_text 5 0 31 (js ".9 px") Node.DATACENTER_ID
           Browser.WORKER_ID {[ Browser.WORKER_ID := js "5.9 px" ]});
    [unfold MAX_SAFE_INTEGER; cbn; lia | lia | reflexivity].
Defined.

(** X21. End to end through the environment: when the datacenter and
    worker variables hold the decimal strings of [d] and [w] in [0,31] and
    there are no overrides, every identifier that [generateFromEnv] returns
    decodes to datacenterId [d] and workerId [w]. *)
Theorem generateFromEnv_decodes (env : gmap string jsstring) (d w : Z)
    (clock : list Z) (id : jsstring) (clock' : list Z) (epoch' : Z) :
  env !! Node.DATACENTER_ID = Some (Builtin.toString d) ->
  env !! Node.WORKER_ID = Some (Builtin.toString w) ->
  0 <= d <= 31 -> 0 <= w <= 31 ->
  NodeOneShot.generateFromEnv ∅ env clock = (Return id, clock') ->
  exists c, parseSnowflakeId id epoch' = Return c
            /\ Parsed.datacenterId c = d /\ Parsed.workerId c = w.
Proof.
  intros Hld Hlw Hd Hw. unfold NodeOneShot.generateFromEnv, Node.createSnowflakeFromEnv.
  destruct (Node.loadConfigFromEnv env) as [config|e|] eqn:Hload; try discriminate.
  destruct (NodeFacts.loadConfigFromEnv_Return _ _ Hload)
    as (dc & wk & Hdc & Hwk & Hcdc & Hcwk).
  rewrite Hld, <- (app_nil_r (Builtin.toString d)), NodeFacts.parseEnvInt_stored in Hdc
    by (try exact I; lia).
  rewrite Hlw, <- (app_nil_r (Builtin.toString w)), NodeFacts.parseEnvInt_stored in Hwk
    by (try exact I; lia).
  injection Hdc as <-. injection Hwk as <-.
  destruct (createSnowflake (spread config ∅)) as [g|e|] eqn:Hcreate; try discriminate.
  destruct (GeneratorFacts.createSnowflake_fields _ _ Hcreate) as (_ & Egd & Egw).
  rewrite AdapterFacts.withDefault_spread, lookup_empty in Egd, Egw.
  unfold withDefault in Egd, Egw. rewrite Hcdc in Egd. rewrite Hcwk in Egw.
  apply GeneratorFacts.createSnowflake_wellFormed in Hcreate as [Hwf _].
  intros Hgen. apply NodeFacts.oneShot_Return in Hgen as (g' & Hwf' & Hdc' & Hw' & _ & ->);
    [|exact Hwf].
  eexists. split; [apply RunFacts.parse_lastIdentifier; exact Hwf'|].
  cbn. split; congruence.
Qed.

Lemma generateFromEnv_decodes_witness :
  exists c, parseSnowflakeId (js "516866048") 0 = Return c
            /\ Parsed.datacenterId c = 7 /\ Parsed.workerId c = 12.
Proof.
  apply (generateFromEnv_decodes
           ({[ Node.DATACENTER_ID := js "7" ]} ∪ {[ Node.WORKER_ID := js "12" ]})
           7 12 [1577836800123] (js "516866048") [] 0);
    first [lia | vm_compute; reflexivity].
Defined.

(** X22. End to end through [localStorage]: every identifier that
    [generateFromStorage] returns decodes to the datacenterId given as an
    override when there is one, and otherwise to the one stored (as the
    decimal string of [d] in [0,31]), whatever the fingerprint is. *)
Theorem generateFromStorage_decodes (overrides : gmap string jsvalue)
    (items : gmap string jsstring) (fp : Browser.Fingerprint) (d : Z)
    (clock : list Z) (id : jsstring) (clock' : list Z) (epoch' : Z) :
  overrides !! "datacenterId" = Some (number d)
  \/ (overrides !! "datacenterId" = None
      /\ items !! Browser.DATACENTER_ID = Some (Builtin.toString d) /\ 0 <= d <= 31) ->
  Stored.generateFromStorage overrides (Some items) fp clock = (Return id, clock') ->
  exists c, parseSnowflakeId id epoch' = Return c /\ Parsed.datacenterId c = d.
Proof.
  intros Hsource. unfold Stored.generateFromStorage.
  destruct (Browser.createSnowflakeFromStorage overrides (Some items) fp)
    as [g|e|] eqn:Hcreate; try discriminate.
  assert (datacenterId g = d) as Egd.
  { destruct Hsource as [Hov|(Hnone & Hlook & Hrange)].
    - eapply AdapterFacts.createSnowflakeFromStorage_override; eassumption.
    - destruct (AdapterFacts.createSnowflakeFromStorage_available _ _ _ _ Hcreate)
        as [Hdc _].
      rewrite (Hdc Hnone),
        (StorageFacts.parseLocalStorageInt_stored _ _ _ _ _ Hlook Hrange ltac:(lia)).
      reflexivity. }
  unfold Browser.createSnowflakeFromStorage in Hcreate.
  apply GeneratorFacts.createSnowflake_wellFormed in Hcreate as [Hwf _].
  intros Hgen. apply NodeFacts.oneShot_Return in Hgen as (g' & Hwf' & Hdc' & _ & _ & ->);
    [|exact Hwf].
  eexists. split; [apply RunFacts.parse_lastIdentifier; exact Hwf'|].
  cbn. congruence.
Qed.

Lemma generateFromStorage_decodes_witness :
  exists c, parseSnowflakeId (js "518520832") 0 = Return c /\ Parsed.datacenterId c = 20.
Proof.
  apply (generateFromStorage_decodes {[ "datacenterId" := number 20 ]}
           {[ Browser.DATACENTER_ID := js "5" ]} (Browser.mkFingerprint 17 7) 20
           [1577836800123] (js "518520832") [] 0);
    [left; reflexivity | vm_compute; reflexivity].
Defined.
